(** * Crypto Surge Monitor: rolling price histories and momentum projection

    A shallow embedding of [app.py] and [streamlit_app.py].

    Modelling conventions.
    - A Python [float] is a real number ([R]). Rounding is not modelled,
      nor is a result that rounds to an infinity without raising. What
      Python raises is modelled: an exception is a value of [exn], and a
      computation that can raise returns [exn + A]. The arithmetic of the
      projection and of the confidence is transcribed a second time over
      binary64 floats, in [Binary64], to run it as Python runs it where
      rounding decides: the worked example, and the confidence at the
      ends of the curve.
    - A [datetime] is an integer count of microseconds since the epoch, the
      resolution of [datetime]; [timedelta(minutes=m)] is [m * 60_000_000].
    - A [dict] is an association list with distinct keys, in insertion
      order, as Python iterates it.
    - The session's [price_histories] object is a store that the functions
      receive by reference: code that touches it runs in the monad [M],
      whose state survives an exception, as a Python object does. *)

From Stdlib Require Import Reals Lra Lia ZArith String Ascii Bool List.
From Stdlib Require Import Permutation Sorted.
From Stdlib Require PrimFloat.
From ExtLib Require Import Structures.Monad Data.Monads.EitherMonad.
Import ListNotations.
Import MonadNotation.
Local Open Scope monad_scope.
Local Open Scope string_scope.
Local Open Scope list_scope.
Local Open Scope Z_scope.
Set Warnings "-register-all".

(** ** Exceptions and effects *)

Inductive exn : Type :=
| RequestException   (* requests: transport error, timeout, HTTPError *)
| JSONDecodeError
| AttributeError
| TypeError
| ValueError
| OverflowError
| OSError
| KeyError
| IndexError
| ZeroDivisionError.

Definition result (A : Type) : Type := (exn + A)%type.

#[global] Instance Monad_result : Monad result := Monad_either exn.

(** A computation over a mutable object of type [S]: it returns a value or
    raises, and in both cases leaves the object in some state. *)
Definition M (S A : Type) : Type := S -> result A * S.

#[global] Instance Monad_M (S : Type) : Monad (M S) :=
  {| ret := fun _ a s => (inr a, s);
     bind := fun _ _ m k s =>
       match m s with
       | (inr a, s') => k a s'
       | (inl e, s') => (inl e, s')
       end |}.

Definition run {S A : Type} (m : M S A) (s : S) : result A * S := m s.
Definition exec {S A : Type} (m : M S A) (s : S) : S := snd (m s).
Definition eval {S A : Type} (m : M S A) (s : S) : result A := fst (m s).

Definition gets {S A : Type} (f : S -> A) : M S A := fun s => (inr (f s), s).
Definition modify {S : Type} (f : S -> S) : M S unit := fun s => (inr tt, f s).
Definition throw {S A : Type} (e : exn) : M S A := fun s => (inl e, s).
Definition lift {S A : Type} (r : result A) : M S A := fun s => (r, s).

(** [for x in l: body(x)] *)
Fixpoint for_each {S A : Type} (l : list A) (body : A -> M S unit) : M S unit :=
  match l with
  | [] => ret tt
  | x :: l' => body x ;; for_each l' body
  end.

(** A computation that only reads the object it is given. *)
Definition read_only {S A : Type} (m : M S A) : Prop :=
  forall s, exec m s = s.

(** ** Python dictionaries *)

Module Dict.
Section Dict.
Context {V : Type}.

Definition t : Type := list (string * V).

(** [d.get(k)] *)
Fixpoint get (d : t) (k : string) : option V :=
  match d with
  | [] => None
  | (k', v) :: d' => if String.eqb k' k then Some v else get d' k
  end.

(** [d[k] = v]: an existing key keeps its place, a new one goes last. *)
Fixpoint set (d : t) (k : string) (v : V) : t :=
  match d with
  | [] => [(k, v)]
  | (k', v') :: d' =>
      if String.eqb k' k then (k', v) :: d' else (k', v') :: set d' k v
  end.

Definition keys (d : t) : list string := map fst d.
Definition items (d : t) : list (string * V) := d.

(** The keys of a dict are distinct. *)
Definition wf (d : t) : Prop := NoDup (keys d).
End Dict.
Arguments t : clear implicits.
End Dict.

(** ** Data model *)

Definition datetime : Type := Z.

(** [timedelta(minutes=m)] *)
Definition timedelta_minutes (m : Z) : Z := m * 60000000.

(** An entry [{"time": ..., "price": ...}] of a history. The price is
    whatever the quote carried; [update_histories] never looks at it. *)
Record Sample (P : Type) : Type := mkSample { time : datetime; price : P }.
Arguments mkSample {P} _ _.
Arguments time {P} _.
Arguments price {P} _.

Abbreviation History P := (list (Sample P)).
Definition Histories (P : Type) : Type := Dict.t (History P).

(** The mapping [fetch_prices] returns: coin -> (price, updated_at). *)
Definition Prices (P : Type) : Type := Dict.t (P * datetime).

(** [l[-n:]] for [n > 0] *)
Definition last_n {A : Type} (n : nat) (l : list A) : list A :=
  skipn (length l - n) l.

(** ** update_histories (app.py 64-70, streamlit_app.py 80-98) *)

Section Update.
Context {P : Type}.

(** [histories.setdefault(coin, []).append(entry)] *)
Definition setdefault_append (coin : string) (entry : Sample P)
  : M (Histories P) unit :=
  modify (fun histories =>
    match Dict.get histories coin with
    | Some h => Dict.set histories coin (h ++ [entry])
    | None => Dict.set histories coin ([] ++ [entry])
    end).

(** [histories[coin]] *)
Definition getitem (coin : string) : M (Histories P) (History P) :=
  fun histories =>
    match Dict.get histories coin with
    | Some h => (inr h, histories)
    | None => (inl KeyError, histories)
    end.

(** [histories[coin] = h] *)
Definition setitem (coin : string) (h : History P) : M (Histories P) unit :=
  modify (fun histories => Dict.set histories coin h).

(** [now] is the reading of [datetime.utcnow()] on entry. *)
Definition update_histories (now : datetime) (prices : Prices P)
  : M (Histories P) unit :=
  for_each (Dict.items prices) (fun '(coin, (price, _)) =>
    let entry := {| time := now; price := price |} in
    setdefault_append coin entry ;;
    h <- getitem coin ;;
    if (60 <? length h)%nat
    then h' <- getitem coin ;; setitem coin (last_n 60 h')
    else ret tt).
End Update.

(** ** compute_predictions *)

(** A row of the result: [{"coin", "projected_gain", "confidence"}]. *)
Record Prediction : Type := mkPrediction {
  coin : string;
  projected_gain : R;
  confidence : R
}.

(** [l[-1]] *)
Fixpoint getitem_last {A : Type} (l : list A) : result A :=
  match l with
  | [] => inl IndexError
  | [x] => inr x
  | _ :: l' => getitem_last l'
  end.

(** [x / y] on Python floats: the exact quotient. The quotient of two
    doubles that is beyond every double is an infinity, and is not
    raised. *)
Definition truediv (x y : R) : result R :=
  if Req_dec_T y 0 then inl ZeroDivisionError else inr (x / y)%R.

(** The loop [for x in l: acc = body(acc, x)] with a local accumulator. *)
Fixpoint for_fold {S A B : Type} (l : list A) (acc : B)
    (body : B -> A -> M S B) : M S B :=
  match l with
  | [] => ret acc
  | x :: l' => acc' <- body acc x ;; for_fold l' acc' body
  end.

(** *** app.py 72-101 *)

Module App.

(** The largest finite double. *)
Definition DBL_MAX : R := ((2 - / 2 ^ 52) * 2 ^ 1023)%R.

(** [math.exp(x)]: OverflowError when the result is out of the range of
    a double. *)
Definition math_exp (x : R) : result R :=
  if Rlt_dec DBL_MAX (exp x) then inl OverflowError else inr (exp x).

(** The closure [pct_change_over] of lines 79-89; [now], [history] and
    [current_price] are the variables it captures. The [for]/[break]
    scan is [find]. *)
Definition pct_change_over (now : datetime) (history : History R)
    (current_price : R) (minutes : Z) : result R :=
  let cutoff := now - timedelta_minutes minutes in
  let old_entry := find (fun entry => time entry <=? cutoff) history in
  match old_entry with
  | None => inr 0%R
  | Some old_entry =>
      let old_price := price old_entry in
      if Rgt_dec old_price 0
      then truediv (current_price - old_price) old_price
      else inr 0%R
  end.

(** Line 95, as an exact value. [math.exp] raises from 710 on, so that
    there is none for a projected gain of -705 or less; what rounding
    makes of it at the other end is [Binary64.confidence_from]. *)
Definition confidence_of (projected_gain_pct : R) : result R :=
  e <- math_exp (- (projected_gain_pct - 5.0)) ;;
  truediv 1.0 (1.0 + e).

(** The body of the loop, lines 78-100, for a history that passed the
    length test. *)
Definition predict (now : datetime) (coin : string) (history : History R)
  : result Prediction :=
  current <- getitem_last history ;;
  let current_price := price current in
  r1 <- pct_change_over now history current_price 1 ;;
  r5 <- pct_change_over now history current_price 5 ;;
  r15 <- pct_change_over now history current_price 15 ;;
  let projected_change :=
    (0.5 * r1 * (30/1) + 0.3 * r5 * (30/5) + 0.2 * r15 * (30/15))%R in
  let projected_gain_pct := (projected_change * 100.0)%R in
  confidence <- confidence_of projected_gain_pct ;;
  ret {| coin := coin;
         projected_gain := projected_gain_pct;
         confidence := confidence |}.

(** [now] is the reading of [datetime.utcnow()] at line 74. *)
Definition compute_predictions (now : datetime)
  : M (Histories R) (list Prediction) :=
  items <- gets Dict.items ;;
  for_fold items [] (fun results '(coin, history) =>
    if (length history <? 2)%nat then ret results
    else
      p <- lift (predict now coin history) ;;
      ret (results ++ [p])).

End App.

(** *** The arithmetic of both files over binary64 floats *)

Module Binary64.
Import PrimFloat.
Local Open Scope float_scope.
#[local] Set Warnings "-inexact-float".

(** The last line of [pct_change_over]. *)
Definition window_return (current_price old_price : float) : float :=
  if 0 <? old_price then (current_price - old_price) / old_price else 0.0.

(** app.py 93-94, streamlit_app.py 143-144. *)
Definition projected_gain_pct (r1 r5 r15 : float) : float :=
  let projected_change :=
    0.5 * r1 * (30/1) + 0.3 * r5 * (30/5) + 0.2 * r15 * (30/15) in
  projected_change * 100.0.



End Binary64.

(** *** streamlit_app.py 100-155 *)

Module StreamlitApp.

(** A data frame built from a history: its rows, in order. *)
Definition DataFrame : Type := list (Sample R).

(** [series.iloc[-1]] *)
Definition iloc_last (df : DataFrame) : result (Sample R) := getitem_last df.

(** [np.exp] returns a value for every argument. *)
Definition np_exp (x : R) : R := exp x.

(** The closure [pct_change_over] of lines 125-133, over the sorted frame
    [df]. The division is numpy's, which does not raise. *)
Definition pct_change_over (df : DataFrame) (current_price : R)
    (minutes : Z) : result R :=
  newest <- iloc_last df ;;
  let cutoff_time := time newest - timedelta_minutes minutes in
  let older := filter (fun row => time row <=? cutoff_time) df in
  match older with
  | [] => ret 0%R
  | row :: _ =>
      let old_price := price row in
      if Rgt_dec old_price 0
      then ret ((current_price - old_price) / old_price)%R
      else ret 0%R
  end.

(** Line 147, as an exact value: strictly between 0 and 1, where the
    double is 1.0 or 0.0 at the ends ([Binary64.confidence_from]). *)
Definition confidence_of (projected_gain_pct : R) : R :=
  (1.0 / (1.0 + np_exp (- (projected_gain_pct - 5.0))))%R.

Section Sorting.
(** [df.sort_values("time")]. pandas sorts with an algorithm that need
    not be stable, so the sort is a parameter of the model. *)
Variable sort_values : DataFrame -> DataFrame.

(** The body of the loop, lines 119-154. The column [time_delta] of
    line 121 is computed and never read. *)
Definition predict (coin : string) (history : History R)
  : result Prediction :=
  let df := sort_values history in
  current <- iloc_last df ;;
  let current_price := price current in
  r1 <- pct_change_over df current_price 1 ;;
  r5 <- pct_change_over df current_price 5 ;;
  r15 <- pct_change_over df current_price 15 ;;
  let projected_change :=
    (0.5 * r1 * (30/1) + 0.3 * r5 * (30/5) + 0.2 * r15 * (30/15))%R in
  let projected_gain_pct := (projected_change * 100.0)%R in
  let confidence := confidence_of projected_gain_pct in
  ret {| coin := coin;
         projected_gain := projected_gain_pct;
         confidence := confidence |}.

Definition compute_predictions : M (Histories R) (list Prediction) :=
  items <- gets Dict.items ;;
  for_fold items [] (fun results '(coin, history) =>
    if (length history <? 2)%nat then ret results
    else
      p <- lift (predict coin history) ;;
      ret (results ++ [p])).
End Sorting.

(** What [sort_values] is known to do: reorder the rows by time. *)
Definition time_le (a b : Sample R) : Prop := time a <= time b.

Definition sorts_by_time (sort : DataFrame -> DataFrame) : Prop :=
  forall df, Permutation df (sort df) /\ Sorted time_le (sort df).

(** A sort that meets it. *)
Fixpoint insert_by_time (x : Sample R) (l : DataFrame) : DataFrame :=
  match l with
  | [] => [x]
  | y :: l' => if time x <=? time y then x :: l else y :: insert_by_time x l'
  end.

Definition stable_sort (df : DataFrame) : DataFrame :=
  fold_right insert_by_time [] df.

End StreamlitApp.

(** ** fetch_prices (app.py 38-62, streamlit_app.py 45-78) *)

Definition COINS : list string :=
  [ "bitcoin"; "ethereum"; "binancecoin"; "ripple"; "cardano";
    "solana"; "dogecoin"; "tron"; "polkadot"; "litecoin" ].

(** The values [response.json()] can return. *)
Inductive pyval : Type :=
| PNone
| PBool (b : bool)
| PInt (z : Z)
| PFloat (x : R)
| PStr (s : string)
| PList (l : list pyval)
| PDict (d : list (string * pyval)).

(** Truth value, as [not v] tests it. *)
Definition truthy (v : pyval) : bool :=
  match v with
  | PNone => false
  | PBool b => b
  | PInt z => negb (z =? 0)
  | PFloat x => if Req_dec_T x 0 then false else true
  | PStr s => negb (String.eqb s "")
  | PList l => match l with [] => false | _ => true end
  | PDict d => match d with [] => false | _ => true end
  end.

Definition is_none (v : pyval) : bool :=
  match v with PNone => true | _ => false end.

(** [v.get(k)]: only a dict has the method. *)
Definition py_get (v : pyval) (k : string) : result pyval :=
  match v with
  | PDict d =>
      match Dict.get d k with
      | Some x => inr x
      | None => inr PNone
      end
  | _ => inl AttributeError
  end.

(** Nearest integer, ties to even. *)
Definition round_half_even (x : R) : Z :=
  let f := Int_part x in
  let d := (x - IZR f)%R in
  if Rlt_dec d (1/2) then f
  else if Rlt_dec (1/2) d then f + 1
  else if Z.even f then f else f + 1.

(** The first and the last microsecond a [datetime] can hold:
    0001-01-01 00:00:00 and 9999-12-31 23:59:59.999999. *)
Definition datetime_min : Z := -62135596800 * 1000000.
Definition datetime_max : Z := 253402300800 * 1000000 - 1.

(** The constructor of [datetime]: a year from 1 to 9999. *)
Definition in_datetime_range (us : Z) : result datetime :=
  if (datetime_min <=? us) && (us <=? datetime_max)
  then inr us else inl ValueError.

(** The seconds a C [time_t] holds, and those that [gmtime] breaks down,
    the year having to fit a C [int]: CPython on 64-bit Linux. *)
Definition time_t_min : Z := - 2 ^ 63.
Definition time_t_max : Z := 2 ^ 63 - 1.
Definition gmtime_min : Z := -67768040609740800.
Definition gmtime_max : Z := 67768036191676799.

(** What [utcfromtimestamp] does with a number read as [us] microseconds.
    The whole seconds are put in a [time_t], or OverflowError; [gmtime]
    breaks them down, or OSError; the [datetime] is built, or ValueError
    for its year. *)
Definition datetime_from_timet_and_us (us : Z) : result datetime :=
  let timet := us / 1000000 in
  if negb ((time_t_min <=? timet) && (timet <=? time_t_max))
  then inl OverflowError
  else if negb ((gmtime_min <=? timet) && (timet <=? gmtime_max))
  then inl OSError
  else in_datetime_range us.

(** [datetime.utcfromtimestamp(v)]: a number of seconds, rounded to the
    microsecond; anything but a number is a TypeError. *)
Definition utcfromtimestamp (v : pyval) : result datetime :=
  match v with
  | PInt z => datetime_from_timet_and_us (z * 1000000)
  | PBool b => datetime_from_timet_and_us ((if b then 1 else 0) * 1000000)
  | PFloat x => datetime_from_timet_and_us (round_half_even (x * 1000000))
  | _ => inl TypeError
  end.

(** What the request meets: no answer at all, or a response with a status
    code and a body that is JSON ([Some]) or not ([None]). *)
Inductive Upstream : Type :=
| Unreachable
| Response (status_code : Z) (body : option pyval).

(** [requests.get(url, params=params, timeout=10)] *)
Definition requests_get (u : Upstream) : result (Z * option pyval) :=
  match u with
  | Unreachable => inl RequestException
  | Response status_code body => inr (status_code, body)
  end.

(** [response.raise_for_status()]: HTTPError on 4xx and 5xx. *)
Definition raise_for_status (response : Z * option pyval) : result unit :=
  let status_code := fst response in
  if (400 <=? status_code) && (status_code <? 600)
  then inl RequestException else inr tt.

(** [response.json()] *)
Definition json (response : Z * option pyval) : result pyval :=
  match snd response with
  | Some v => inr v
  | None => inl JSONDecodeError
  end.

(** The loop [for x in l: acc = body(acc, x)] where the body can raise. *)
Fixpoint fold_result {A B : Type} (l : list A) (acc : B)
    (body : B -> A -> result B) : result B :=
  match l with
  | [] => ret acc
  | x :: l' => acc' <- body acc x ;; fold_result l' acc' body
  end.

(** The body of the loop, lines 54-61. *)
Definition fetch_coin (data : pyval) (prices : Prices pyval) (coin : string)
  : result (Prices pyval) :=
  info <- py_get data coin ;;
  if negb (truthy info) then ret prices
  else
    price <- py_get info "usd" ;;
    updated_at <- py_get info "last_updated_at" ;;
    if is_none price || is_none updated_at then ret prices
    else
      t <- utcfromtimestamp updated_at ;;
      ret (Dict.set prices coin (price, t)).

Definition fetch_prices (upstream : Upstream) : result (Prices pyval) :=
  let attempt :=
    response <- requests_get upstream ;;
    raise_for_status response ;;
    json response in
  match attempt with
  | inl _ => ret []                  (* except Exception: return {} *)
  | inr data => fold_result COINS [] (fetch_coin data)
  end.

(** ** format_coin_name (app.py 103-104, streamlit_app.py 157-159)

    Strings are sequences of bytes; the coin identifiers are ASCII, and a
    byte outside ASCII is taken as a character without case. *)

Module Str.

Definition is_upper (c : ascii) : bool :=
  let n := nat_of_ascii c in ((65 <=? n) && (n <=? 90))%nat.
Definition is_lower (c : ascii) : bool :=
  let n := nat_of_ascii c in ((97 <=? n) && (n <=? 122))%nat.
Definition upper (c : ascii) : ascii :=
  if is_lower c then ascii_of_nat (nat_of_ascii c - 32) else c.
Definition lower (c : ascii) : ascii :=
  if is_upper c then ascii_of_nat (nat_of_ascii c + 32) else c.

(** [s.title()]: a cased character that follows an uncased one (or starts
    the string) is put in upper case, every other cased character in
    lower case. *)
Fixpoint title_from (previous_is_cased : bool) (s : string) : string :=
  match s with
  | EmptyString => EmptyString
  | String c s' =>
      if is_lower c then
        String (if previous_is_cased then c else upper c) (title_from true s')
      else if is_upper c then
        String (if previous_is_cased then lower c else c) (title_from true s')
      else String c (title_from false s')
  end.

Definition title (s : string) : string := title_from false s.

(** [s.replace(old, new)] for a non-empty [old]: the occurrences are taken
    from the left and do not overlap. [skip] counts the characters of a
    matched occurrence still to be dropped. *)
Fixpoint replace_from (old new : string) (skip : nat) (s : string) : string :=
  match s with
  | EmptyString => EmptyString
  | String c s' =>
      match skip with
      | S k => replace_from old new k s'
      | O =>
          if String.prefix old s
          then String.append new
                 (replace_from old new (String.length old - 1) s')
          else String c (replace_from old new 0 s')
      end
  end.

(** [s.replace("", new)] puts [new] around every character. *)
Fixpoint interleave (new s : string) : string :=
  match s with
  | EmptyString => new
  | String c s' => String.append new (String c (interleave new s'))
  end.

Definition replace (old new s : string) : string :=
  match old with
  | EmptyString => interleave new s
  | _ => replace_from old new 0 s
  end.

End Str.

Definition format_coin_name (coin_id : string) : string :=
  Str.title
    (Str.replace "ripple" "XRP"
       (Str.replace "binancecoin" "Binance Coin" coin_id)).

(** ** Vocabulary of the statements *)

(** The history of a coin, empty when the coin has none yet. *)
Definition history_of {P : Type} (histories : Histories P) (coin : string)
  : History P :=
  match Dict.get histories coin with
  | Some h => h
  | None => []
  end.

(** Every history holds at most 60 samples. *)
Definition bounded {P : Type} (histories : Histories P) : Prop :=
  Forall (fun kv => (length (snd kv) <= 60)%nat) histories.

(** What one round of the loop of [update_histories] does to the store. *)
Definition append_sample {P : Type} (now : datetime)
    (histories : Histories P) (quote : string * (P * datetime))
  : Histories P :=
  Dict.set histories (fst quote)
    (last_n 60 (history_of histories (fst quote)
                ++ [mkSample now (fst (snd quote))])).

(** The body of the loop of [compute_predictions], given what it does
    with a history that passed the length test. *)
Definition loop_body (predict : string -> History R -> result Prediction)
    (results : list Prediction) (item : string * History R)
  : M (Histories R) (list Prediction) :=
  let '(coin, history) := item in
  if (length history <? 2)%nat then ret results
  else p <- lift (predict coin history) ;; ret (results ++ [p]).

(** The rows [compute_predictions] gathers from the items of the store,
    given the body of its loop. *)
Fixpoint collect (predict : string -> History R -> result Prediction)
    (items : list (string * History R)) (results : list Prediction)
  : result (list Prediction) :=
  match items with
  | [] => inr results
  | (coin, history) :: items' =>
      if (length history <? 2)%nat then collect predict items' results
      else
        match predict coin history with
        | inl e => inl e
        | inr p => collect predict items' (results ++ [p])
        end
  end.

(** [old] is the first sample of [history], in its order, taken at
    [cutoff] or before; [None] says that there is no such sample. *)
Definition first_at_or_before (cutoff : datetime) (history : History R)
    (old : option (Sample R)) : Prop :=
  match old with
  | None => forall s, In s history -> cutoff < time s
  | Some o =>
      exists before after,
        history = before ++ o :: after /\
        time o <= cutoff /\
        forall s, In s before -> cutoff < time s
  end.

(** The return from the old sample to the current price. *)
Definition return_from (old : option (Sample R)) (current_price : R) : R :=
  match old with
  | None => 0%R
  | Some o =>
      if Rgt_dec (price o) 0
      then ((current_price - price o) / price o)%R
      else 0%R
  end.

(** The samples are in strictly increasing order of time. *)
Definition increasing (history : History R) : Prop :=
  StronglySorted (fun a b => time a < time b) history.

(** The window return as the specification words it: [now] is the time of
    the most recent sample, the old sample is the first one in order at
    [now] minus [w] minutes or before, the return is 0 when there is none
    and (current - old) / old otherwise. *)
Definition spec_window_return (history : History R) (w : Z) : R :=
  match getitem_last history with
  | inl _ => 0%R
  | inr newest =>
      let now := time newest in
      match find (fun s => time s <=? now - timedelta_minutes w) history with
      | None => 0%R
      | Some old => ((price newest - price old) / price old)%R
      end
  end.

(** The projected gain in percent from the three window returns. *)
Definition spec_projected_gain (r1 r5 r15 : R) : R :=
  ((0.5 * r1 * 30 + 0.3 * r5 * 6 + 0.2 * r15 * 2) * 100)%R.

(** The logistic curve centred on 5. *)
Definition logistic (g : R) : R := (1 / (1 + exp (- (g - 5))))%R.

(** The coins of the rows are the coins of the store with two samples or
    more, in the order of the store. *)
Definition coins_with_two (histories : Histories R) : list string :=
  map fst (filter (fun kv => negb (length (snd kv) <? 2)%nat) histories).

(** [old] occurs somewhere in [s]. *)
Fixpoint occurs (old s : string) : bool :=
  match s with
  | EmptyString => String.prefix old s
  | String _ s' => String.prefix old s || occurs old s'
  end.

(** The payload [d] holds a complete quote for [coin]: an object with a
    price and an update time, neither null, the time one that
    [utcfromtimestamp] takes. *)
Definition complete_quote (d : list (string * pyval)) (coin : string)
    (p : pyval) (t : datetime) : Prop :=
  exists info ts,
    Dict.get d coin = Some (PDict info) /\
    Dict.get info "usd" = Some p /\ p <> PNone /\
    Dict.get info "last_updated_at" = Some ts /\ ts <> PNone /\
    utcfromtimestamp ts = inr t.

(** The entry of [coin] in the payload has a shape the loop takes: absent,
    or a value that counts as false, or an object whose update time, when
    it comes with a price, is one that [utcfromtimestamp] takes. *)
Definition quote_shaped (d : list (string * pyval)) (coin : string) : Prop :=
  match Dict.get d coin with
  | None => True
  | Some v =>
      truthy v = false \/
      exists info,
        v = PDict info /\
        forall p ts,
          Dict.get info "usd" = Some p -> p <> PNone ->
          Dict.get info "last_updated_at" = Some ts -> ts <> PNone ->
          exists t, utcfromtimestamp ts = inr t
  end.

(** The quote the loop stores for [coin], if it stores one. *)
Definition quote_of (d : list (string * pyval)) (coin : string)
  : option (pyval * datetime) :=
  match Dict.get d coin with
  | Some (PDict info) =>
      match Dict.get info "usd", Dict.get info "last_updated_at" with
      | Some p, Some ts =>
          if is_none p || is_none ts then None
          else
            match utcfromtimestamp ts with
            | inr t => Some (p, t)
            | inl _ => None
            end
      | _, _ => None
      end
  | _ => None
  end.

(** One round of the loop of [fetch_prices] on a payload it takes. *)
Definition store_quote (d : list (string * pyval)) (prices : Prices pyval)
    (coin : string) : Prices pyval :=
  match quote_of d coin with
  | Some q => Dict.set prices coin q
  | None => prices
  end.

(** ** More vocabulary: histories over time *)

(** The samples of a history are in order of time and none is later than
    [now]. *)
Definition chronological {P : Type} (now : datetime) (h : History P) : Prop :=
  StronglySorted (fun a b => time a <= time b) h /\
  Forall (fun s => time s <= now) h.

(** Successive calls of [update_histories], each with its reading of the
    clock and its quotes. *)
Fixpoint update_each {P : Type} (calls : list (datetime * Prices P))
  : M (Histories P) unit :=
  match calls with
  | [] => ret tt
  | (now, prices) :: calls' =>
      update_histories now prices ;; update_each calls'
  end.

(** The call [call] quotes [coin], and [s] is the sample it makes of it. *)
Definition quoted_as {P : Type} (coin : string) (call : datetime * Prices P)
    (s : Sample P) : Prop :=
  Dict.wf (snd call) /\
  time s = fst call /\
  exists u, In (coin, (price s, u)) (snd call).

(** ** main, up to the call of compute_predictions
    (app.py 116-125, streamlit_app.py 177-193) *)

(** The two attributes [main] keeps in [st.session_state]; [None] is an
    attribute that is not set. *)
Record SessionState : Type := mkSessionState {
  autorefresh : option Z;
  price_histories : option (Histories pyval)
}.

(** [if "autorefresh" not in st.session_state:
       st.session_state.autorefresh = 0] *)
Definition init_autorefresh : M SessionState unit :=
  modify (fun st =>
    match autorefresh st with
    | Some _ => st
    | None => {| autorefresh := Some 0;
                 price_histories := price_histories st |}
    end).

(** [st.session_state.autorefresh += 1] *)
Definition incr_autorefresh : M SessionState unit :=
  fun st =>
    match autorefresh st with
    | Some n => (inr tt, {| autorefresh := Some (n + 1);
                            price_histories := price_histories st |})
    | None => (inl AttributeError, st)
    end.

(** [if "price_histories" not in st.session_state:
       st.session_state.price_histories = {}] *)
Definition init_price_histories : M SessionState unit :=
  modify (fun st =>
    match price_histories st with
    | Some _ => st
    | None => {| autorefresh := autorefresh st;
                 price_histories := Some [] |}
    end).

(** A call that is given [st.session_state.price_histories]. *)
Definition on_price_histories {A : Type} (m : M (Histories pyval) A)
  : M SessionState A :=
  fun st =>
    match price_histories st with
    | Some histories =>
        let (r, histories') := m histories in
        (r, {| autorefresh := autorefresh st;
               price_histories := Some histories' |})
    | None => (inl AttributeError, st)
    end.

(** The truth value of a dict, as [if prices:] tests it. *)
Definition nonempty {V : Type} (d : Dict.t V) : bool :=
  match d with
  | [] => false
  | _ => true
  end.

(** [now] is the reading of the clock inside [update_histories]. *)
Definition main_refresh (upstream : Upstream) (now : datetime)
  : M SessionState unit :=
  init_autorefresh ;;
  incr_autorefresh ;;
  init_price_histories ;;
  prices <- lift (fetch_prices upstream) ;;
  if nonempty prices
  then on_price_histories (update_histories now prices)
  else ret tt.

(** The histories of a session, none before the first run. *)
Definition stored (st : SessionState) : Histories pyval :=
  match price_histories st with
  | Some histories => histories
  | None => []
  end.

(** The runs a session has counted. *)
Definition runs (st : SessionState) : Z :=
  match autorefresh st with
  | Some n => n
  | None => 0
  end.

(** ** More vocabulary: the same market in other units *)

(** A sample with its price multiplied by [k] and its time moved by [d]. *)
Definition rebase_sample (k : R) (d : Z) (s : Sample R) : Sample R :=
  mkSample (time s + d) (k * price s)%R.

(** A history with every sample so changed. *)
Definition rebase (k : R) (d : Z) (h : History R) : History R :=
  map (rebase_sample k d) h.

(** The same for every history of a store. *)
Definition rebase_all (k : R) (d : Z) (histories : Histories R)
  : Histories R :=
  map (fun kv => (fst kv, rebase k d (snd kv))) histories.

(** ** main: the ranking of the rows (app.py 128-144) *)

(** [sorted(predictions, key=lambda x: x["confidence"], reverse=True)].
    Python's sort is stable, also in reverse: rows of equal confidence stay
    in the order they came in. *)
Fixpoint insert_by_confidence (x : Prediction) (l : list Prediction)
  : list Prediction :=
  match l with
  | [] => [x]
  | y :: l' =>
      if Rle_dec (confidence y) (confidence x)
      then x :: l
      else y :: insert_by_confidence x l'
  end.

Definition predictions_sorted (predictions : list Prediction)
  : list Prediction :=
  fold_right insert_by_confidence [] predictions.

(** [top = predictions_sorted[:5]] *)
Definition top (predictions : list Prediction) : list Prediction :=
  firstn 5 (predictions_sorted predictions).

(** A row of the table of app.py. *)
Record Row : Type := mkRow {
  Coin : string;
  Projected_Gain : string;
  Confidence : string
}.

(** What [main] puts on the page after the heading. *)
Inductive View : Type :=
| st_table (table_rows : list Row)
| st_info       (* "No coins predicted to surge by 5% or more." *)
| st_warning.   (* "Collecting data... please wait a minute ..." *)

Section Formatting.
(** The formats [f"{x:.2f}"] and [f"{x:.1f}"] of a float. *)
Variables format_2f format_1f : R -> string.

Definition table_row (item : Prediction) : Row :=
  {| Coin := format_coin_name (coin item);
     Projected_Gain := format_2f (projected_gain item);
     Confidence := format_1f (confidence item * 100)%R |}.

(** Lines 128-144 of app.py. *)
Definition app_view (predictions : list Prediction) : View :=
  match predictions with
  | [] => st_warning
  | _ :: _ =>
      match top predictions with
      | [] => st_info
      | _ :: _ => st_table (map table_row (top predictions))
      end
  end.
End Formatting.

(** ** main: the candidates shown (streamlit_app.py 197-211) *)

(** [predictions_df["projected_gain"] >= 5.0] *)
Definition clears_threshold (p : Prediction) : bool :=
  if Rge_dec (projected_gain p) 5.0 then true else false.

Section Candidates.
(** [df.sort_values(["projected_gain", "confidence"],
                    ascending=[False, False])], a parameter as
    [sort_values] is. *)
Variable sort_values_desc : list Prediction -> list Prediction.

Definition top_candidates (predictions_df : list Prediction)
  : list Prediction :=
  let top_candidates :=
    firstn 5 (sort_values_desc (filter clears_threshold predictions_df)) in
  if (length top_candidates <? 5)%nat
  then firstn 5 (sort_values_desc predictions_df)
  else top_candidates.
End Candidates.

(** The figures a row is ranked by. *)
Definition figures (p : Prediction) : R * R :=
  (projected_gain p, confidence p).

(** [a] does not rank after [b]: its gain is higher, or the same with a
    confidence at least as high. *)
Definition ranks_first (a b : R * R) : Prop :=
  (fst a > fst b)%R \/ (fst a = fst b /\ (snd a >= snd b)%R).

(** What [sort_values_desc] is known to do. *)
Definition sorts_by_rank (sort : list Prediction -> list Prediction) : Prop :=
  forall l,
    Permutation l (sort l) /\
    Sorted (fun a b => ranks_first (figures a) (figures b)) (sort l).

(** A sort that meets it. *)
Fixpoint insert_by_rank (x : Prediction) (l : list Prediction)
  : list Prediction :=
  match l with
  | [] => [x]
  | y :: l' =>
      if Rgt_dec (projected_gain x) (projected_gain y) then x :: l
      else if Rgt_dec (projected_gain y) (projected_gain x)
           then y :: insert_by_rank x l'
           else if Rge_dec (confidence x) (confidence y) then x :: l
                else y :: insert_by_rank x l'
  end.

Definition sort_by_rank (l : list Prediction) : list Prediction :=
  fold_right insert_by_rank [] l.

(** ** More vocabulary: title case *)

(** [s] is in title case: no lower-case letter starts a word and no
    upper-case letter follows a letter. [previous_is_cased] tells whether
    a letter comes just before [s]. *)
Fixpoint titled (previous_is_cased : bool) (s : string) : bool :=
  match s with
  | EmptyString => true
  | String c s' =>
      (if previous_is_cased
       then negb (Str.is_upper c)
       else negb (Str.is_lower c))
      && titled (Str.is_lower c || Str.is_upper c) s'
  end.

(** * Properties *)

(** ** Dictionaries and slices *)

Section DictFacts.
Context {V : Type}.
Implicit Types (d : Dict.t V) (k : string) (v : V).

Lemma get_set_same d k v : Dict.get (Dict.set d k v) k = Some v.
Proof.
  induction d as [|[k' v'] d IH]; simpl.
  - now rewrite String.eqb_refl.
  - destruct (String.eqb k' k) eqn:E; simpl; rewrite E; auto.
Qed.

Lemma get_set_other d k k' v :
  k <> k' -> Dict.get (Dict.set d k v) k' = Dict.get d k'.
Proof.
  intros Hne. induction d as [|[k0 v0] d IH]; simpl.
  - destruct (String.eqb_spec k k'); congruence.
  - destruct (String.eqb_spec k0 k); simpl.
    + subst k0. destruct (String.eqb_spec k k'); congruence.
    + now rewrite IH.
Qed.

Lemma set_set d k v v' : Dict.set (Dict.set d k v) k v' = Dict.set d k v'.
Proof.
  induction d as [|[k0 v0] d IH]; simpl.
  - now rewrite String.eqb_refl.
  - destruct (String.eqb k0 k) eqn:E; simpl; rewrite E; congruence.
Qed.

Lemma Forall_set (Q : V -> Prop) d k v :
  Forall (fun kv => Q (snd kv)) d -> Q v ->
  Forall (fun kv => Q (snd kv)) (Dict.set d k v).
Proof.
  intros Hd Hv. induction Hd as [|[k0 v0] d H0 Hd IH]; simpl.
  - now constructor.
  - destruct (String.eqb k0 k); constructor; auto.
Qed.


Lemma get_in d k v : Dict.wf d -> In (k, v) d -> Dict.get d k = Some v.
Proof.
  unfold Dict.wf, Dict.keys.
  induction d as [|[k0 v0] d IH]; simpl; intros Hnd Hin; [tauto|].
  inversion Hnd as [|? ? Hnotin Hnd']; subst.
  destruct Hin as [Heq | Hin].
  - inversion Heq; subst. now rewrite String.eqb_refl.
  - destruct (String.eqb_spec k0 k) as [->|Hne]; [|auto].
    exfalso. apply Hnotin. apply (in_map fst) in Hin. exact Hin.
Qed.

End DictFacts.

Section SliceFacts.
Context {A : Type}.
Implicit Types (l : list A) (n : nat).

Lemma last_n_length n l : length (last_n n l) = Nat.min n (length l).
Proof. unfold last_n. rewrite length_skipn. lia. Qed.

Lemma last_n_short n l : (length l <= n)%nat -> last_n n l = l.
Proof.
  intros H. unfold last_n.
  replace (length l - n)%nat with 0%nat by lia. reflexivity.
Qed.

(** The slice is the end of the list. *)
Lemma last_n_suffix n l : firstn (length l - n) l ++ last_n n l = l.
Proof. unfold last_n. apply firstn_skipn. Qed.

Lemma last_n_nth n l i :
  nth_error (last_n n l) i = nth_error l (length l - n + i).
Proof. unfold last_n. apply nth_error_skipn. Qed.

(** Cutting, appending and cutting again is appending and cutting. *)
Lemma last_n_app_last_n n l l' :
  last_n n (last_n n l ++ l') = last_n n (l ++ l').
Proof.
  destruct (Nat.le_gt_cases (length l) n) as [Hle | Hgt].
  - now rewrite (last_n_short n l Hle).
  - assert (Hcut : last_n n l ++ l' = skipn (length l - n) (l ++ l')).
    { unfold last_n. rewrite skipn_app.
      replace (length l - n - length l)%nat with 0%nat by lia.
      reflexivity. }
    unfold last_n at 1. rewrite Hcut, skipn_skipn.
    unfold last_n. f_equal.
    rewrite length_skipn, !length_app. lia.
Qed.
End SliceFacts.

(** ** update_histories *)

Lemma run_bind {S A B : Type} (m : M S A) (k : A -> M S B) (s : S) :
  run (bind m k) s
  = match run m s with
    | (inr a, s') => run (k a) s'
    | (inl e, s') => (inl e, s')
    end.
Proof. reflexivity. Qed.


Section UpdateFacts.
Context {P : Type}.
Implicit Types (histories : Histories P) (prices : Prices P).

Lemma run_setdefault_append coin entry histories :
  run (setdefault_append coin entry) histories
  = (inr tt, Dict.set histories coin (history_of histories coin ++ [entry])).
Proof.
  unfold run, setdefault_append, modify, history_of. cbv beta.
  now destruct (Dict.get histories coin).
Qed.

Lemma run_getitem_set coin h histories :
  run (getitem coin) (Dict.set histories coin h)
  = (inr h, Dict.set histories coin h).
Proof. unfold run, getitem. now rewrite get_set_same. Qed.

Lemma run_setitem coin h histories :
  run (setitem coin h) histories = (inr tt, Dict.set histories coin h).
Proof. reflexivity. Qed.

(** One round of the loop never raises, and appends then cuts. *)
Lemma update_round now histories coin (p : P) (u : datetime) :
  run (setdefault_append coin {| time := now; price := p |} ;;
       h <- getitem coin ;;
       if (60 <? length h)%nat
       then h' <- getitem coin ;; setitem coin (last_n 60 h')
       else ret tt) histories
  = (inr tt, append_sample now histories (coin, (p, u))).
Proof.
  unfold append_sample. cbn [fst snd].
  set (appended := history_of histories coin ++ [mkSample now p]).
  rewrite run_bind, run_setdefault_append. fold appended.
  rewrite run_bind, run_getitem_set.
  destruct (Nat.ltb_spec 60 (length appended)) as [Hlong | Hshort].
  - rewrite run_bind, run_getitem_set, run_setitem. now rewrite set_set.
  - rewrite last_n_short by lia. reflexivity.
Qed.

Lemma update_histories_run now prices histories :
  run (update_histories now prices) histories
  = (inr tt, fold_left (append_sample now) prices histories).
Proof.
  unfold update_histories, Dict.items.
  revert histories.
  induction prices as [|[coin [p u]] prices IH]; intros histories.
  - reflexivity.
  - cbn [for_each]. rewrite run_bind. cbv beta iota zeta.
    rewrite (update_round now histories coin p u).
    cbn [fold_left]. apply IH.
Qed.

Lemma append_sample_other now histories quote coin :
  fst quote <> coin ->
  Dict.get (append_sample now histories quote) coin
  = Dict.get histories coin.
Proof. intros Hne. unfold append_sample. now rewrite get_set_other. Qed.

Lemma fold_append_other now prices histories coin :
  ~ In coin (Dict.keys prices) ->
  Dict.get (fold_left (append_sample now) prices histories) coin
  = Dict.get histories coin.
Proof.
  revert histories.
  induction prices as [|quote prices IH]; intros histories Hnotin; cbn.
  - reflexivity.
  - cbn in Hnotin. rewrite IH by tauto.
    apply append_sample_other. tauto.
Qed.

(** A quoted coin gets exactly one sample, and the cut. *)
Lemma fold_append_quoted now prices histories coin p u :
  Dict.wf prices -> In (coin, (p, u)) prices ->
  Dict.get (fold_left (append_sample now) prices histories) coin
  = Some (last_n 60 (history_of histories coin ++ [mkSample now p])).
Proof.
  unfold Dict.wf, Dict.keys. revert histories.
  induction prices as [|quote prices IH]; intros histories Hnd Hin;
    [destruct Hin|].
  cbn in Hnd. inversion Hnd as [|? ? Hfresh Hnd']; subst.
  destruct Hin as [-> | Hin]; cbn [fold_left].
  - rewrite fold_append_other by exact Hfresh.
    unfold append_sample. cbn [fst snd]. apply get_set_same.
  - rewrite (IH _ Hnd' Hin). do 3 f_equal.
    unfold history_of. rewrite append_sample_other; [reflexivity|].
    intros Heq. apply Hfresh. rewrite Heq.
    apply (in_map fst) in Hin. exact Hin.
Qed.

Lemma fold_append_bounded now prices histories :
  bounded histories ->
  bounded (fold_left (append_sample now) prices histories).
Proof.
  revert histories.
  induction prices as [|quote prices IH]; intros histories Hb; cbn; auto.
  apply IH. unfold append_sample.
  apply (Forall_set (fun h => (length h <= 60)%nat)); auto.
  rewrite last_n_length. lia.
Qed.
End UpdateFacts.

(** C4. A call of [update_histories] returns without raising and keeps
    every history at 60 samples or fewer. The history of a quoted coin is
    its old history with one sample appended, cut to its last 60 entries:
    what is kept is the end of the appended list, 60 entries long when the
    list was longer. Appending to a history of 60 leaves 60 samples, the
    oldest being the former second oldest. *)
Theorem update_histories_keeps_60 :
  forall (P : Type) (now : datetime) (prices : Prices P)
         (histories : Histories P),
    Dict.wf prices ->
    bounded histories ->
    let histories' := exec (update_histories now prices) histories in
    eval (update_histories now prices) histories = inr tt /\
    bounded histories' /\
    forall coin p u, In (coin, (p, u)) prices ->
      let old := history_of histories coin in
      let appended := old ++ [mkSample now p] in
      exists kept dropped,
        Dict.get histories' coin = Some kept /\
        appended = dropped ++ kept /\
        length kept = Nat.min 60 (length appended) /\
        (length old = 60%nat ->
         length kept = 60%nat /\ nth_error kept 0 = nth_error old 1).
Proof.
  intros P now prices histories Hwf Hb histories'.
  unfold histories', exec, eval.
  pose proof (update_histories_run now prices histories) as Hrun.
  unfold run in Hrun. rewrite Hrun. cbn [fst snd].
  split; [reflexivity|]. split; [now apply fold_append_bounded|].
  intros coin p u Hin. cbv zeta.
  set (old := history_of histories coin).
  set (appended := old ++ [mkSample now p]).
  exists (last_n 60 appended), (firstn (length appended - 60) appended).
  split; [now apply fold_append_quoted with (u := u)|].
  split; [symmetry; apply last_n_suffix|].
  split; [apply last_n_length|].
  intros Hlen.
  assert (Hlen' : length appended = 61%nat)
    by (unfold appended; rewrite length_app; cbn; lia).
  split.
  - rewrite last_n_length. lia.
  - rewrite last_n_nth, Hlen'. cbn [Nat.sub Nat.add].
    unfold appended. apply nth_error_app1. lia.
Qed.

(** C8. Two successive calls with the same quotes append two samples to
    the history of every quoted coin, also when both calls read the same
    time: the history becomes the old one followed by both samples, cut to
    its last 60 entries, so its length grows by 2 up to the cap of 60. *)
Theorem update_histories_twice_appends_two :
  forall (P : Type) (now1 now2 : datetime) (prices : Prices P)
         (histories : Histories P) (coin : string) (p : P) (u : datetime),
    Dict.wf prices ->
    In (coin, (p, u)) prices ->
    let once := exec (update_histories now1 prices) histories in
    let twice := exec (update_histories now2 prices) once in
    let old := history_of histories coin in
    Dict.get twice coin
      = Some (last_n 60 (old ++ [mkSample now1 p; mkSample now2 p])) /\
    length (history_of twice coin) = Nat.min 60 (length old + 2).
Proof.
  intros P now1 now2 prices histories coin p u Hwf Hin once twice old.
  assert (Htwice : Dict.get twice coin
            = Some (last_n 60 (old ++ [mkSample now1 p; mkSample now2 p]))).
  { unfold twice, once, exec.
    pose proof (update_histories_run now1 prices histories) as H1.
    unfold run in H1. rewrite H1. cbn [snd].
    pose proof (update_histories_run now2 prices
                  (fold_left (append_sample now1) prices histories)) as H2.
    unfold run in H2. rewrite H2. cbn [snd].
    rewrite (fold_append_quoted now2 _ _ coin p u Hwf Hin).
    unfold history_of at 1.
    rewrite (fold_append_quoted now1 _ _ coin p u Hwf Hin).
    rewrite last_n_app_last_n, <- app_assoc. reflexivity. }
  split; [exact Htwice|].
  unfold history_of at 1. rewrite Htwice.
  rewrite last_n_length, length_app. cbn. lia.
Qed.

(** ** Computations that raise *)


Lemma rbind_inr {A B : Type} (a : A) (k : A -> result B) :
  bind (inr a : result A) k = k a.
Proof. reflexivity. Qed.

Lemma rbind_inv {A B : Type} (m : result A) (k : A -> result B) (b : B) :
  bind m k = inr b -> exists a, m = inr a /\ k a = inr b.
Proof. destruct m as [e|a]; [discriminate | eauto]. Qed.

(** ** Computations that only read *)

Section ReadOnly.
Context {S : Type}.

Lemma read_only_ret {A : Type} (a : A) : read_only (ret a : M S A).
Proof. intros s. reflexivity. Qed.

Lemma read_only_gets {A : Type} (f : S -> A) : read_only (gets f).
Proof. intros s. reflexivity. Qed.

Lemma read_only_lift {A : Type} (r : result A) : read_only (lift r : M S A).
Proof. intros s. reflexivity. Qed.

Lemma read_only_bind {A B : Type} (m : M S A) (k : A -> M S B) :
  read_only m -> (forall a, read_only (k a)) -> read_only (bind m k).
Proof.
  intros Hm Hk s. specialize (Hm s). unfold exec in *.
  cbn [bind Monad_M].
  destruct (m s) as [[e|a] s']; cbn [snd] in *; subst s'.
  - reflexivity.
  - apply Hk.
Qed.

Lemma read_only_for_fold {A B : Type} (l : list A) (body : B -> A -> M S B) :
  (forall acc x, read_only (body acc x)) ->
  forall acc, read_only (for_fold l acc body).
Proof.
  intros Hbody. induction l as [|x l IH]; intros acc; cbn [for_fold].
  - apply read_only_ret.
  - apply read_only_bind; auto.
Qed.

(** A read-only computation is determined by its value. *)
Lemma read_only_run {A : Type} (m : M S A) (s : S) :
  read_only m -> run m s = (eval m s, s).
Proof.
  intros Hm. specialize (Hm s). unfold run, eval, exec in *.
  destruct (m s) as [r s']. cbn in *. now subst.
Qed.
End ReadOnly.

(** Writing is not reading: [update_histories] changes the store. *)
Lemma update_histories_writes :
  ~ read_only (update_histories (P := R) 0 [("bitcoin", (1%R, 0))]).
Proof. intros H. specialize (H []). discriminate H. Qed.

(** ** The loop of compute_predictions *)

Section Collect.
Variable predict : string -> History R -> result Prediction.

Lemma loop_body_read_only results item :
  read_only (loop_body predict results item).
Proof.
  destruct item as [coin history]. unfold loop_body.
  destruct (length history <? 2)%nat.
  - apply read_only_ret.
  - apply read_only_bind; [apply read_only_lift|].
    intros p. apply read_only_ret.
Qed.

Lemma for_fold_collect items results (s : Histories R) :
  eval (for_fold items results (loop_body predict)) s
  = collect predict items results.
Proof.
  revert results. induction items as [|[coin history] items IH];
    intros results; cbn [for_fold collect].
  - reflexivity.
  - unfold eval in *. cbn [bind Monad_M]. unfold loop_body at 1.
    destruct (length history <? 2)%nat.
    + cbn. apply IH.
    + cbn. unfold lift.
      destruct (predict coin history) as [e|p]; cbn; [reflexivity|].
      apply IH.
Qed.

(** The rows that come out are those of the coins with two samples or
    more, in the order of the store, after those already gathered. *)
Lemma collect_coins items results out :
  (forall c h p, predict c h = inr p -> coin p = c) ->
  collect predict items results = inr out ->
  map coin out
  = map coin results
    ++ map fst (filter (fun kv => negb (length (snd kv) <? 2)%nat) items).
Proof.
  intros Hcoin. revert results.
  induction items as [|[c h] items IH]; intros results Hout;
    cbn [collect filter snd] in *.
  - inversion Hout; subst. now rewrite app_nil_r.
  - destruct (length h <? 2)%nat; cbn [negb].
    + now apply IH.
    + destruct (predict c h) as [e|p] eqn:Hp; [discriminate|].
      rewrite (IH _ Hout), map_app. cbn [map fst].
      rewrite (Hcoin _ _ _ Hp), <- app_assoc. reflexivity.
Qed.

(** Every coin with two samples or more gets the row the body made. *)
Lemma collect_rows items results out c h :
  collect predict items results = inr out ->
  In (c, h) items -> (2 <= length h)%nat ->
  exists p, predict c h = inr p /\ In p out.
Proof.
  assert (Hkeep : forall items results out p,
             collect predict items results = inr out ->
             In p results -> In p out).
  { clear. induction items as [|[c h] items IH]; intros results out p Hout Hin;
      cbn [collect] in Hout.
    - now inversion Hout; subst.
    - destruct (length h <? 2)%nat; [eauto|].
      destruct (predict c h) as [e|q]; [discriminate|].
      eapply IH; [exact Hout|]. apply in_or_app. now left. }
  revert results.
  induction items as [|[c' h'] items IH]; intros results Hout Hin Hlen;
    [destruct Hin|].
  cbn [collect] in Hout. destruct Hin as [Heq | Hin].
  - inversion Heq; subst c' h'.
    destruct (Nat.ltb_spec (length h) 2) as [Hlt|_]; [lia|].
    destruct (predict c h) as [e|p]; [discriminate|].
    exists p. split; [reflexivity|].
    eapply Hkeep; [exact Hout|]. apply in_or_app. right. now left.
  - destruct (length h' <? 2)%nat; [eauto|].
    destruct (predict c' h') as [e|p]; [discriminate|]. eauto.
Qed.

(** When the body never raises on a history of two samples or more, the
    loop returns. *)
Lemma collect_returns items results :
  (forall c h, In (c, h) items -> (2 <= length h)%nat ->
               exists p, predict c h = inr p) ->
  exists out, collect predict items results = inr out.
Proof.
  revert results.
  induction items as [|[c h] items IH]; intros results Hok; cbn [collect].
  - eauto.
  - destruct (Nat.ltb_spec (length h) 2) as [Hlt|Hge].
    + apply IH. intros; apply Hok; [now right | assumption].
    + destruct (Hok c h (or_introl eq_refl) Hge) as [p ->].
      apply IH. intros; apply Hok; [now right | assumption].
Qed.
End Collect.

(** ** compute_predictions: what it returns and what it leaves alone *)

Lemma app_compute_run now (histories : Histories R) :
  run (App.compute_predictions now) histories
  = (collect (App.predict now) histories [], histories).
Proof.
  assert (Hro : read_only (App.compute_predictions now)).
  { unfold App.compute_predictions.
    apply read_only_bind; [apply read_only_gets|].
    intros items. apply read_only_for_fold.
    intros acc x. apply (loop_body_read_only (App.predict now)). }
  rewrite (read_only_run _ _ Hro). f_equal.
  apply (for_fold_collect (App.predict now)).
Qed.

Lemma streamlit_compute_run sort (histories : Histories R) :
  run (StreamlitApp.compute_predictions sort) histories
  = (collect (StreamlitApp.predict sort) histories [], histories).
Proof.
  assert (Hro : read_only (StreamlitApp.compute_predictions sort)).
  { unfold StreamlitApp.compute_predictions.
    apply read_only_bind; [apply read_only_gets|].
    intros items. apply read_only_for_fold.
    intros acc x. apply (loop_body_read_only (StreamlitApp.predict sort)). }
  rewrite (read_only_run _ _ Hro). f_equal.
  apply (for_fold_collect (StreamlitApp.predict sort)).
Qed.

(** C10. [compute_predictions] only reads the mapping it is given: in both
    files, whatever it returns or raises, the mapping, its keys, its
    histories and their samples are afterwards what they were. *)
Theorem compute_predictions_reads_only :
  (forall now (histories : Histories R),
      exec (App.compute_predictions now) histories = histories) /\
  (forall sort (histories : Histories R),
      exec (StreamlitApp.compute_predictions sort) histories = histories).
Proof.
  split.
  - intros now. change (read_only (App.compute_predictions now)).
    unfold App.compute_predictions.
    apply read_only_bind; [apply read_only_gets|].
    intros items. apply read_only_for_fold.
    intros acc [coin history].
    destruct (length history <? 2)%nat.
    + apply read_only_ret.
    + apply read_only_bind; [apply read_only_lift|].
      intros p. apply read_only_ret.
  - intros sort. change (read_only (StreamlitApp.compute_predictions sort)).
    unfold StreamlitApp.compute_predictions.
    apply read_only_bind; [apply read_only_gets|].
    intros items. apply read_only_for_fold.
    intros acc [coin history].
    destruct (length history <? 2)%nat.
    + apply read_only_ret.
    + apply read_only_bind; [apply read_only_lift|].
      intros p. apply read_only_ret.
Qed.

(** ** Sorting a history by time *)

Lemma insert_by_time_perm x l :
  Permutation (x :: l) (StreamlitApp.insert_by_time x l).
Proof.
  induction l as [|y l IH]; cbn.
  - apply Permutation_refl.
  - destruct (time x <=? time y); [apply Permutation_refl|].
    eapply Permutation_trans; [apply perm_swap|].
    now apply perm_skip.
Qed.

Lemma insert_by_time_sorted x l :
  Sorted StreamlitApp.time_le l ->
  Sorted StreamlitApp.time_le (StreamlitApp.insert_by_time x l).
Proof.
  induction 1 as [|y l Hl IH Hhd]; cbn.
  - repeat constructor.
  - destruct (Z.leb_spec (time x) (time y)) as [Hle | Hgt].
    + repeat constructor; assumption.
    + constructor; [exact IH|].
      destruct Hhd as [|z l Hyz]; cbn.
      * constructor. unfold StreamlitApp.time_le. lia.
      * destruct (time x <=? time z); constructor;
          unfold StreamlitApp.time_le in *; lia.
Qed.

Lemma stable_sort_sorts : StreamlitApp.sorts_by_time StreamlitApp.stable_sort.
Proof.
  intros df. unfold StreamlitApp.stable_sort.
  induction df as [|x df [IHp IHs]]; cbn.
  - split; constructor.
  - split.
    + eapply Permutation_trans; [apply perm_skip, IHp|].
      apply insert_by_time_perm.
    + now apply insert_by_time_sorted.
Qed.

(** Whatever the algorithm, sorting a history whose times already increase
    strictly gives the history back. *)
Lemma sorted_perm_increasing (h s : History R) :
  increasing h -> Permutation h s -> Sorted StreamlitApp.time_le s -> s = h.
Proof.
  intros Hinc. revert s.
  induction Hinc as [|a h Hinc IH Hall]; intros s Hperm Hsorted.
  - now apply Permutation_nil.
  - destruct s as [|b s].
    + apply Permutation_sym, Permutation_nil in Hperm. discriminate.
    + assert (Hb : In b (a :: h))
        by (eapply Permutation_in; [apply Permutation_sym, Hperm | now left]).
      assert (Ha : In a (b :: s))
        by (eapply Permutation_in; [exact Hperm | now left]).
      assert (Hbs : Forall (StreamlitApp.time_le b) s).
      { apply Sorted_StronglySorted in Hsorted.
        - now inversion Hsorted.
        - intros x y z. unfold StreamlitApp.time_le. lia. }
      rewrite Forall_forall in Hall, Hbs.
      assert (Heq : b = a).
      { destruct Hb as [Hb | Hb]; [now symmetry|].
        specialize (Hall _ Hb).
        destruct Ha as [Ha | Ha]; [now subst |].
        specialize (Hbs _ Ha). unfold StreamlitApp.time_le in Hbs. lia. }
      subst b. f_equal. apply IH.
      * eapply Permutation_cons_inv. exact Hperm.
      * now inversion Hsorted.
Qed.

Lemma sort_increasing sort (h : History R) :
  StreamlitApp.sorts_by_time sort -> increasing h -> sort h = h.
Proof.
  intros Hsort Hinc. destruct (Hsort h) as [Hperm Hsorted].
  now apply sorted_perm_increasing.
Qed.

(** ** The last sample *)

Lemma getitem_last_app {A : Type} (l : list A) (x : A) :
  getitem_last (l ++ [x]) = inr x.
Proof.
  induction l as [|y l IH]; [reflexivity|].
  cbn [app getitem_last]. rewrite IH.
  destruct (l ++ [x]) eqn:E; [|reflexivity].
  now destruct l.
Qed.


Lemma getitem_last_returns {A : Type} (l : list A) :
  (1 <= length l)%nat -> exists x, getitem_last l = inr x.
Proof.
  intros Hlen. destruct (@exists_last _ l) as [l' [x ->]].
  - destruct l; [cbn in Hlen; lia | discriminate].
  - exists x. apply getitem_last_app.
Qed.

(** ** The scan for the old sample *)

Lemma find_first_at_or_before cutoff (history : History R) :
  first_at_or_before cutoff history
    (find (fun entry => time entry <=? cutoff) history).
Proof.
  induction history as [|e history IH]; cbn [find].
  - intros s [].
  - destruct (Z.leb_spec (time e) cutoff) as [Hle | Hgt].
    + exists [], history. cbn. intuition.
    + destruct (find _ history) as [o|]; cbn in *.
      * destruct IH as (before & after & -> & Ho & Hbefore).
        exists (e :: before), after. cbn. intuition (subst; auto).
      * intros s [<- | Hs]; auto.
Qed.

(** The first row of the filtered frame is what the scan finds. *)
Lemma filter_head_find {A : Type} (f : A -> bool) (l : list A) :
  match filter f l with
  | [] => None
  | x :: _ => Some x
  end = find f l.
Proof.
  induction l as [|x l IH]; cbn; [reflexivity|].
  destruct (f x); [reflexivity | exact IH].
Qed.

(** The old sample is determined by the history and the cutoff. *)
Lemma first_at_or_before_unique cutoff (history : History R) o1 o2 :
  first_at_or_before cutoff history o1 ->
  first_at_or_before cutoff history o2 -> o1 = o2.
Proof.
  assert (Hfind : forall o, first_at_or_before cutoff history o ->
            o = find (fun entry => time entry <=? cutoff) history).
  { clear. intros [o|]; cbn.
    - intros (before & after & -> & Ho & Hbefore).
      induction before as [|b before IH]; cbn.
      + destruct (Z.leb_spec (time o) cutoff); [reflexivity | lia].
      + destruct (Z.leb_spec (time b) cutoff) as [Hle|_].
        * specialize (Hbefore b (or_introl eq_refl)). lia.
        * apply IH. intros s Hs. apply Hbefore. now right.
    - intros Hnone. induction history as [|e history IH]; cbn; [reflexivity|].
      destruct (Z.leb_spec (time e) cutoff) as [Hle|_].
      + specialize (Hnone e (or_introl eq_refl)). lia.
      + apply IH. intros s Hs. apply Hnone. now right. }
  intros H1 H2. now rewrite (Hfind _ H1), (Hfind _ H2).
Qed.

(** ** The window return *)

Lemma truediv_positive x y : (y > 0)%R -> truediv x y = inr (x / y)%R.
Proof.
  intros Hy. unfold truediv. destruct (Req_dec_T y 0); [lra | reflexivity].
Qed.

(** In app.py the window return is the guarded return from the sample the
    scan finds, and the division never raises. *)
Lemma app_pct_change_over now history current_price minutes :
  App.pct_change_over now history current_price minutes
  = inr (return_from
           (find (fun entry => time entry <=? now - timedelta_minutes minutes)
                 history)
           current_price).
Proof.
  unfold App.pct_change_over, return_from. cbv zeta.
  destruct (find _ history) as [o|]; [|reflexivity].
  destruct (Rgt_dec (price o) 0) as [Hpos|]; [|reflexivity].
  now apply truediv_positive.
Qed.

(** The same in streamlit_app.py, where the cutoff counts from the last
    row of the frame. *)
Lemma streamlit_pct_change_over df newest current_price minutes :
  getitem_last df = inr newest ->
  StreamlitApp.pct_change_over df current_price minutes
  = inr (return_from
           (find (fun row => time row <=?
                               time newest - timedelta_minutes minutes) df)
           current_price).
Proof.
  intros Hlast. unfold StreamlitApp.pct_change_over, StreamlitApp.iloc_last.
  rewrite Hlast, rbind_inr. cbv zeta.
  rewrite <- filter_head_find. unfold return_from.
  destruct (filter _ df) as [|row older]; [reflexivity|].
  destruct (Rgt_dec (price row) 0); reflexivity.
Qed.

(** Settles the tests on concrete reals that block a computation. *)
Ltac real_tests :=
  repeat match goal with
    | |- context [Rgt_dec ?x ?y] => destruct (Rgt_dec x y); try lra
    | |- context [Rlt_dec ?x ?y] => destruct (Rlt_dec x y); try lra
    | |- context [Req_dec_T ?x ?y] => destruct (Req_dec_T x y); try lra
    end;
  try reflexivity.

Lemma return_from_cases old current_price :
  match old with
  | None => return_from old current_price = 0%R
  | Some o =>
      ((price o > 0)%R ->
       return_from old current_price
       = ((current_price - price o) / price o)%R) /\
      ((price o <= 0)%R -> return_from old current_price = 0%R)
  end.
Proof.
  destruct old as [o|]; cbn; [|reflexivity].
  destruct (Rgt_dec (price o) 0); split; intros; try reflexivity; lra.
Qed.

(** C1, as the code has it. For a history of two samples or more, whose
    newest sample gives the current price, and a window of [w] minutes: the
    old sample is the first one in the order of the history taken at
    [now] minus [w] minutes or before, where [now] is the reading of the
    clock in app.py and, for a history in strictly increasing order of
    time, the time of the newest sample in streamlit_app.py. The return is
    0 when there is no such sample, (current - old) / old when the old
    price is positive, and 0 when it is not. *)
Theorem window_return_of_first_old_sample :
  forall (history : History R) (newest : Sample R) (w : Z),
    (2 <= length history)%nat ->
    In w [1; 5; 15] ->
    getitem_last history = inr newest ->
    (forall now, exists old r,
        first_at_or_before (now - timedelta_minutes w) history old /\
        App.pct_change_over now history (price newest) w = inr r /\
        match old with
        | None => r = 0%R
        | Some o =>
            ((price o > 0)%R ->
             r = ((price newest - price o) / price o)%R) /\
            ((price o <= 0)%R -> r = 0%R)
        end) /\
    (forall sort,
        StreamlitApp.sorts_by_time sort -> increasing history ->
        exists old r,
          first_at_or_before (time newest - timedelta_minutes w) history old /\
          StreamlitApp.pct_change_over (sort history) (price newest) w
          = inr r /\
          match old with
          | None => r = 0%R
          | Some o =>
              ((price o > 0)%R ->
               r = ((price newest - price o) / price o)%R) /\
              ((price o <= 0)%R -> r = 0%R)
          end).
Proof.
  intros history newest w _ _ Hlast. split.
  - intros now.
    eexists. eexists. split; [apply find_first_at_or_before|].
    split; [apply app_pct_change_over|].
    apply return_from_cases.
  - intros sort Hsort Hinc.
    rewrite (sort_increasing sort history Hsort Hinc).
    eexists. eexists. split; [apply find_first_at_or_before|].
    split; [apply (streamlit_pct_change_over _ newest); exact Hlast|].
    apply return_from_cases.
Qed.

(** C1 as worded fails in three places. In app.py [now] is the clock: read
    70 s after the newest of two samples 30 s apart, the one-minute window
    reaches the older sample, where a [now] at the newest sample reaches
    none. The return from an old price that is not positive is 0, not the
    quotient. And streamlit_app.py sorts the history first, so that on a
    history out of time order the newest sample is not the last one. *)
Lemma window_return_counterexample :
  (let history := [mkSample 0 100%R; mkSample 30000000 105%R] in
   App.pct_change_over 100000000 history 105 1 = inr (5 / 100)%R /\
   spec_window_return history 1 = 0%R) /\
  (let history := [mkSample 0 (-1)%R; mkSample 120000000 1%R] in
   App.pct_change_over 120000000 history 1 1 = inr 0%R /\
   StreamlitApp.pct_change_over (StreamlitApp.stable_sort history) 1 1
   = inr 0%R /\
   spec_window_return history 1 = (-2)%R) /\
  (let history := [mkSample 60000000 100%R; mkSample 0 105%R] in
   StreamlitApp.pct_change_over (StreamlitApp.stable_sort history) 100 1
   = inr ((100 - 105) / 105)%R /\
   spec_window_return history 1 = 0%R).
Proof.
  cbv zeta. repeat apply conj.
  - rewrite app_pct_change_over. cbn. real_tests. f_equal. lra.
  - reflexivity.
  - rewrite app_pct_change_over. cbn. real_tests.
  - cbn. real_tests.
  - cbn. lra.
  - cbn. real_tests.
  - reflexivity.
Qed.

(** ** The exponential and the confidence *)

Local Open Scope R_scope.

Lemma exp_pow x (n : nat) : exp x ^ n = exp (INR n * x).
Proof.
  induction n as [|n IH].
  - cbn. rewrite Rmult_0_l. symmetry. apply exp_0.
  - rewrite S_INR. cbn [pow]. rewrite IH, <- exp_plus. f_equal. lra.
Qed.

Lemma exp_le x y : x <= y -> exp x <= exp y.
Proof.
  intros [Hlt | ->]; [left; now apply exp_increasing | right; reflexivity].
Qed.

Lemma DBL_MAX_ge_1 : 1 <= App.DBL_MAX.
Proof. unfold App.DBL_MAX. lra. Qed.

Lemma DBL_MAX_lt_pow : App.DBL_MAX < 2 ^ 1024.
Proof. unfold App.DBL_MAX. lra. Qed.

Lemma two_le_exp : 2 <= exp (73 / 100).
Proof.
  replace (73 / 100) with (INR 16 * (73 / 1600)) by (cbn; lra).
  rewrite <- exp_pow.
  apply Rle_trans with ((1 + 73 / 1600) ^ 16); [lra|].
  apply pow_incr. split; [lra | apply exp_ineq1_le].
Qed.

(** From 748 on, the exponential is beyond every double. *)
Lemma exp_out_of_range x : 748 <= x -> App.DBL_MAX < exp x.
Proof.
  intros Hx.
  apply Rlt_le_trans with (2 ^ 1024); [apply DBL_MAX_lt_pow|].
  apply Rle_trans with (exp (73 / 100) ^ 1024).
  - apply pow_incr. split; [lra | apply two_le_exp].
  - rewrite exp_pow. apply exp_le.
    replace (INR 1024) with 1024 by (rewrite INR_IZR_INZ; reflexivity).
    lra.
Qed.

Lemma math_exp_overflow x : 748 <= x -> App.math_exp x = inl OverflowError.
Proof.
  intros Hx. unfold App.math_exp.
  destruct (Rlt_dec App.DBL_MAX (exp x)) as [|Hno]; [reflexivity|].
  exfalso. apply Hno. now apply exp_out_of_range.
Qed.

Lemma math_exp_in_range x :
  exp x <= App.DBL_MAX -> App.math_exp x = inr (exp x).
Proof.
  intros Hx. unfold App.math_exp.
  destruct (Rlt_dec App.DBL_MAX (exp x)); [lra | reflexivity].
Qed.


Lemma math_exp_inv x e : App.math_exp x = inr e -> e = exp x.
Proof.
  unfold App.math_exp. destruct (Rlt_dec _ _); [discriminate|].
  now intros [= <-].
Qed.

Lemma streamlit_confidence_logistic g :
  StreamlitApp.confidence_of g = logistic g.
Proof.
  unfold StreamlitApp.confidence_of, StreamlitApp.np_exp, logistic.
  f_equal; [lra|]. f_equal; [lra|]. f_equal. lra.
Qed.

(** Where [math.exp] returns, app.py computes the same curve; the division
    cannot raise, its divisor being above 1. *)
Lemma app_confidence_in_range g :
  exp (- (g - 5)) <= App.DBL_MAX -> App.confidence_of g = inr (logistic g).
Proof.
  intros Hrange. unfold App.confidence_of.
  replace (- (g - 5.0)) with (- (g - 5)) by lra.
  rewrite math_exp_in_range by exact Hrange. rewrite rbind_inr.
  pose proof (exp_pos (- (g - 5))) as Hpos.
  unfold truediv. destruct (Req_dec_T _ 0); [lra|].
  unfold logistic. do 2 f_equal; lra.
Qed.

Lemma app_confidence_inv g c :
  App.confidence_of g = inr c -> c = logistic g.
Proof.
  unfold App.confidence_of. intros H.
  apply rbind_inv in H. destruct H as (e & He & Hdiv).
  apply math_exp_inv in He. subst e.
  replace (- (g - 5.0)) with (- (g - 5)) in Hdiv by lra.
  pose proof (exp_pos (- (g - 5))) as Hpos.
  unfold truediv in Hdiv. destruct (Req_dec_T _ 0); [lra|].
  injection Hdiv as <-. unfold logistic. do 2 f_equal; lra.
Qed.




Local Close Scope R_scope.

(** ** The body of the loop *)

(** What app.py puts in a row, when it returns one. *)
Lemma app_predict_inv now c h p :
  App.predict now c h = inr p ->
  exists newest r1 r5 r15,
    getitem_last h = inr newest /\
    App.pct_change_over now h (price newest) 1 = inr r1 /\
    App.pct_change_over now h (price newest) 5 = inr r5 /\
    App.pct_change_over now h (price newest) 15 = inr r15 /\
    coin p = c /\
    projected_gain p
    = ((0.5 * r1 * (30/1) + 0.3 * r5 * (30/5) + 0.2 * r15 * (30/15)) * 100)%R /\
    App.confidence_of (projected_gain p) = inr (confidence p).
Proof.
  unfold App.predict. intros H.
  apply rbind_inv in H. destruct H as (newest & Hnewest & H).
  apply rbind_inv in H. destruct H as (r1 & Hr1 & H).
  apply rbind_inv in H. destruct H as (r5 & Hr5 & H).
  apply rbind_inv in H. destruct H as (r15 & Hr15 & H).
  cbv zeta in H.
  apply rbind_inv in H. destruct H as (conf & Hconf & H).
  injection H as <-. cbn [coin projected_gain confidence].
  exists newest, r1, r5, r15.
  repeat (split; [assumption|]).
  split; [reflexivity|]. split; [f_equal; lra | exact Hconf].
Qed.

(** app.py returns a row unless the confidence raises. *)
Lemma app_predict_returns now c h :
  (1 <= length h)%nat ->
  exists newest r1 r5 r15,
    getitem_last h = inr newest /\
    App.pct_change_over now h (price newest) 1 = inr r1 /\
    App.pct_change_over now h (price newest) 5 = inr r5 /\
    App.pct_change_over now h (price newest) 15 = inr r15 /\
    let g :=
      ((0.5 * r1 * (30/1) + 0.3 * r5 * (30/5) + 0.2 * r15 * (30/15)) * 100.0)%R
    in
    App.predict now c h
    = match App.confidence_of g with
      | inl e => inl e
      | inr conf =>
          inr {| coin := c; projected_gain := g; confidence := conf |}
      end.
Proof.
  intros Hlen. destruct (getitem_last_returns h Hlen) as [newest Hnewest].
  exists newest. do 3 eexists.
  split; [exact Hnewest|].
  repeat (split; [apply app_pct_change_over|]).
  cbv zeta. unfold App.predict.
  rewrite Hnewest, rbind_inr. cbv zeta.
  rewrite !app_pct_change_over, !rbind_inr.
  destruct (App.confidence_of _); reflexivity.
Qed.

(** streamlit_app.py returns a row for every history that is not empty. *)
Lemma streamlit_predict_returns sort c h :
  StreamlitApp.sorts_by_time sort ->
  (1 <= length h)%nat ->
  exists newest r1 r5 r15,
    getitem_last (sort h) = inr newest /\
    StreamlitApp.pct_change_over (sort h) (price newest) 1 = inr r1 /\
    StreamlitApp.pct_change_over (sort h) (price newest) 5 = inr r5 /\
    StreamlitApp.pct_change_over (sort h) (price newest) 15 = inr r15 /\
    let g :=
      ((0.5 * r1 * (30/1) + 0.3 * r5 * (30/5) + 0.2 * r15 * (30/15)) * 100.0)%R
    in
    StreamlitApp.predict sort c h
    = inr {| coin := c; projected_gain := g;
             confidence := StreamlitApp.confidence_of g |}.
Proof.
  intros Hsort Hlen.
  assert (Hlen' : (1 <= length (sort h))%nat).
  { destruct (Hsort h) as [Hperm _].
    now rewrite <- (Permutation_length Hperm). }
  destruct (getitem_last_returns (sort h) Hlen') as [newest Hnewest].
  exists newest. do 3 eexists.
  split; [exact Hnewest|].
  repeat (split; [apply (streamlit_pct_change_over _ newest); exact Hnewest|]).
  cbv zeta. unfold StreamlitApp.predict, StreamlitApp.iloc_last. cbv zeta.
  rewrite Hnewest, rbind_inr.
  rewrite !(streamlit_pct_change_over _ newest) by exact Hnewest.
  rewrite !rbind_inr. reflexivity.
Qed.

Lemma app_predict_coin now c h p : App.predict now c h = inr p -> coin p = c.
Proof.
  intros H. apply app_predict_inv in H.
  now destruct H as (? & ? & ? & ? & _ & _ & _ & _ & H & _).
Qed.

Lemma streamlit_predict_coin sort c h p :
  StreamlitApp.predict sort c h = inr p -> coin p = c.
Proof.
  unfold StreamlitApp.predict. cbv zeta. intros H.
  repeat (apply rbind_inv in H; destruct H as (? & _ & H)).
  now injection H as <-.
Qed.

(** ** The rows of compute_predictions *)

Lemma app_compute_eval now (histories : Histories R) :
  eval (App.compute_predictions now) histories
  = collect (App.predict now) histories [].
Proof.
  pose proof (app_compute_run now histories) as H.
  unfold run, eval in *. now rewrite H.
Qed.

Lemma streamlit_compute_eval sort (histories : Histories R) :
  eval (StreamlitApp.compute_predictions sort) histories
  = collect (StreamlitApp.predict sort) histories [].
Proof.
  pose proof (streamlit_compute_run sort histories) as H.
  unfold run, eval in *. now rewrite H.
Qed.

(** streamlit_app.py never raises. *)
Lemma streamlit_compute_returns sort (histories : Histories R) :
  StreamlitApp.sorts_by_time sort ->
  exists results,
    eval (StreamlitApp.compute_predictions sort) histories = inr results.
Proof.
  intros Hsort. rewrite streamlit_compute_eval.
  apply collect_returns. intros c h _ Hlen.
  destruct (streamlit_predict_returns sort c h Hsort) as
    (newest & r1 & r5 & r15 & _ & _ & _ & _ & Hp); [lia|].
  eexists. exact Hp.
Qed.

Lemma coins_with_two_in (histories : Histories R) c :
  Dict.wf histories ->
  In c (coins_with_two histories) ->
  (2 <= length (history_of histories c))%nat.
Proof.
  intros Hwf Hin. unfold coins_with_two in Hin.
  apply in_map_iff in Hin. destruct Hin as ([c' h] & Hc & Hin).
  cbn in Hc. subst c'.
  apply filter_In in Hin. destruct Hin as [Hin Hlen]. cbn [snd] in Hlen.
  unfold history_of. rewrite (get_in _ _ _ Hwf Hin).
  destruct (Nat.ltb_spec (length h) 2); [discriminate Hlen | assumption].
Qed.

(** C6. A coin whose history has fewer than two samples, or no history at
    all, has no row in what [compute_predictions] returns: in app.py
    whenever it returns, and in streamlit_app.py, which always returns. *)
Theorem short_histories_are_left_out :
  forall (histories : Histories R) (c : string),
    Dict.wf histories ->
    (length (history_of histories c) < 2)%nat ->
    (forall now results,
        eval (App.compute_predictions now) histories = inr results ->
        ~ In c (map coin results)) /\
    (forall sort,
        StreamlitApp.sorts_by_time sort ->
        exists results,
          eval (StreamlitApp.compute_predictions sort) histories
          = inr results /\
          ~ In c (map coin results)).
Proof.
  intros histories c Hwf Hshort. split.
  - intros now results Hres Hin.
    rewrite app_compute_eval in Hres.
    apply (collect_coins _ _ _ _ (app_predict_coin now)) in Hres.
    cbn [map app] in Hres. rewrite Hres in Hin.
    apply (coins_with_two_in _ _ Hwf) in Hin. lia.
  - intros sort Hsort.
    destruct (streamlit_compute_returns sort histories Hsort)
      as [results Hres].
    exists results. split; [exact Hres|]. intros Hin.
    rewrite streamlit_compute_eval in Hres.
    apply (collect_coins _ _ _ _ (streamlit_predict_coin sort)) in Hres.
    cbn [map app] in Hres. rewrite Hres in Hin.
    apply (coins_with_two_in _ _ Hwf) in Hin. lia.
Qed.

(** Settles the comparisons of times that block a computation. *)
Ltac time_tests :=
  repeat match goal with
    | |- context [(?a <=? ?b)%Z] => destruct (Z.leb_spec a b); try lia
    end.

(** C2. In both files the row of a coin with two samples or more carries
    projected_gain = (0.5 r1 (30/1) + 0.3 r5 (30/5) + 0.2 r15 (30/15)) * 100,
    where r1, r5 and r15 are the window returns of its history. For the
    two samples 100 at t0 and 105 two minutes later, with [now] at the
    second, r1 = 0.05, r5 = r15 = 0 and the projected gain is 75. *)
Theorem projected_gain_formula :
  (forall (histories : Histories R) (c : string) (h : History R),
      In (c, h) histories ->
      (2 <= length h)%nat ->
      (forall now results,
          eval (App.compute_predictions now) histories = inr results ->
          exists p newest r1 r5 r15,
            In p results /\ coin p = c /\
            getitem_last h = inr newest /\
            App.pct_change_over now h (price newest) 1 = inr r1 /\
            App.pct_change_over now h (price newest) 5 = inr r5 /\
            App.pct_change_over now h (price newest) 15 = inr r15 /\
            projected_gain p
            = ((0.5 * r1 * (30/1) + 0.3 * r5 * (30/5) + 0.2 * r15 * (30/15))
               * 100)%R) /\
      (forall sort,
          StreamlitApp.sorts_by_time sort ->
          exists results p newest r1 r5 r15,
            eval (StreamlitApp.compute_predictions sort) histories
            = inr results /\
            In p results /\ coin p = c /\
            getitem_last (sort h) = inr newest /\
            StreamlitApp.pct_change_over (sort h) (price newest) 1 = inr r1 /\
            StreamlitApp.pct_change_over (sort h) (price newest) 5 = inr r5 /\
            StreamlitApp.pct_change_over (sort h) (price newest) 15
            = inr r15 /\
            projected_gain p
            = ((0.5 * r1 * (30/1) + 0.3 * r5 * (30/5) + 0.2 * r15 * (30/15))
               * 100)%R)) /\
  (forall (t0 : datetime) (c : string),
      let t1 := t0 + timedelta_minutes 2 in
      let h := [mkSample t0 100%R; mkSample t1 105%R] in
      App.pct_change_over t1 h 105 1 = inr 0.05%R /\
      App.pct_change_over t1 h 105 5 = inr 0%R /\
      App.pct_change_over t1 h 105 15 = inr 0%R /\
      (exists conf,
          eval (App.compute_predictions t1) [(c, h)]
          = inr [{| coin := c; projected_gain := 75.0; confidence := conf |}]) /\
      (forall sort,
          StreamlitApp.sorts_by_time sort ->
          StreamlitApp.pct_change_over (sort h) 105 1 = inr 0.05%R /\
          StreamlitApp.pct_change_over (sort h) 105 5 = inr 0%R /\
          StreamlitApp.pct_change_over (sort h) 105 15 = inr 0%R /\
          exists conf,
            eval (StreamlitApp.compute_predictions sort) [(c, h)]
            = inr [{| coin := c; projected_gain := 75.0;
                      confidence := conf |}])).
Proof.
  split.
  - intros histories c h Hin Hlen. split.
    + intros now results Hres.
      rewrite app_compute_eval in Hres.
      destruct (collect_rows _ _ _ _ c h Hres Hin Hlen) as (p & Hp & Hinp).
      destruct (app_predict_inv _ _ _ _ Hp)
        as (newest & r1 & r5 & r15 & H0 & H1 & H5 & H15 & Hc & Hg & _).
      exists p, newest, r1, r5, r15. intuition.
    + intros sort Hsort.
      destruct (streamlit_compute_returns sort histories Hsort)
        as [results Hres].
      pose proof Hres as Hres'. rewrite streamlit_compute_eval in Hres'.
      destruct (collect_rows _ _ _ _ c h Hres' Hin Hlen) as (p & Hp & Hinp).
      destruct (streamlit_predict_returns sort c h Hsort)
        as (newest & r1 & r5 & r15 & H0 & H1 & H5 & H15 & Hg); [lia|].
      cbv zeta in Hg. rewrite Hg in Hp. injection Hp as <-.
      exists results. eexists. exists newest, r1, r5, r15.
      split; [exact Hres|]. split; [exact Hinp|]. cbn [coin projected_gain].
      split; [reflexivity|]. split; [exact H0|]. split; [exact H1|].
      split; [exact H5|]. split; [exact H15|]. f_equal; lra.
  - intros t0 c t1 h.
    assert (Hinc : increasing h).
    { unfold h, t1, timedelta_minutes, increasing.
      repeat constructor. cbn. lia. }
    assert (H1 : App.pct_change_over t1 h 105 1 = inr 0.05%R).
    { rewrite app_pct_change_over.
      unfold h, t1, timedelta_minutes. cbn [find time].
      time_tests. cbn. real_tests. f_equal. lra. }
    assert (H5 : App.pct_change_over t1 h 105 5 = inr 0%R).
    { rewrite app_pct_change_over.
      unfold h, t1, timedelta_minutes. cbn [find time].
      time_tests. reflexivity. }
    assert (H15 : App.pct_change_over t1 h 105 15 = inr 0%R).
    { rewrite app_pct_change_over.
      unfold h, t1, timedelta_minutes. cbn [find time].
      time_tests. reflexivity. }
    assert (Hlast : getitem_last h = inr (mkSample t1 105%R)) by reflexivity.
    assert (Hgain :
      ((0.5 * 0.05 * (30/1) + 0.3 * 0 * (30/5) + 0.2 * 0 * (30/15)) * 100.0
       = 75.0)%R) by lra.
    repeat (split; [assumption|]). split.
    + rewrite app_compute_eval. cbn [collect length Nat.ltb Nat.leb].
      unfold App.predict. rewrite Hlast, rbind_inr. cbv zeta.
      cbn [price]. rewrite H1, H5, H15, !rbind_inr, Hgain.
      rewrite app_confidence_in_range.
      * rewrite rbind_inr. eexists. reflexivity.
      * apply Rle_trans with 1%R; [|apply DBL_MAX_ge_1].
        rewrite <- exp_0. apply exp_le. lra.
    + intros sort Hsort.
      rewrite (sort_increasing sort h Hsort Hinc).
      assert (S1 : StreamlitApp.pct_change_over h 105 1 = inr 0.05%R).
      { rewrite (streamlit_pct_change_over _ _ _ _ Hlast).
        unfold h, t1, timedelta_minutes. cbn [find time].
        time_tests. cbn. real_tests. f_equal. lra. }
      assert (S5 : StreamlitApp.pct_change_over h 105 5 = inr 0%R).
      { rewrite (streamlit_pct_change_over _ _ _ _ Hlast).
        unfold h, t1, timedelta_minutes. cbn [find time].
        time_tests. reflexivity. }
      assert (S15 : StreamlitApp.pct_change_over h 105 15 = inr 0%R).
      { rewrite (streamlit_pct_change_over _ _ _ _ Hlast).
        unfold h, t1, timedelta_minutes. cbn [find time].
        time_tests. reflexivity. }
      repeat (split; [assumption|]).
      rewrite streamlit_compute_eval. cbn [collect length Nat.ltb Nat.leb].
      unfold StreamlitApp.predict, StreamlitApp.iloc_last.
      rewrite (sort_increasing sort h Hsort Hinc).
      rewrite Hlast, rbind_inr. cbv zeta.
      cbn [price]. rewrite S1, S5, S15, !rbind_inr, Hgain.
      eexists. reflexivity.
Qed.

(** The code writes the horizon ratios as quotients; they are the weights
    30, 6 and 2 of the specification. *)
Lemma projected_gain_weights (r1 r5 r15 : R) :
  ((0.5 * r1 * (30/1) + 0.3 * r5 * (30/5) + 0.2 * r15 * (30/15)) * 100.0)%R
  = spec_projected_gain r1 r5 r15.
Proof. unfold spec_projected_gain. lra. Qed.

(** The worked example in binary64 arithmetic: the return of 105 on 100
    rounds, and the projected gain is 75 all the same. *)
Module Binary64Facts.
Import PrimFloat.
#[local] Set Warnings "-inexact-float".

Lemma binary64_example_is_exact :
  Binary64.window_return 105 100 = 0.05%float /\
  Binary64.projected_gain_pct (Binary64.window_return 105 100) 0 0
  = 75%float.
Proof. split; vm_compute; reflexivity. Qed.

End Binary64Facts.

(** ** The guard of the division, and what still raises *)

(** A window return never raises: the quotient is taken from a positive
    old price only, and is 0 from any other. *)
Lemma window_return_guarded (history : History R) (current_price : R)
    (minutes : Z) :
  (forall now, exists r,
      App.pct_change_over now history current_price minutes = inr r /\
      forall o,
        find (fun entry => time entry <=? now - timedelta_minutes minutes)
             history = Some o ->
        (price o <= 0)%R -> r = 0%R) /\
  (forall newest, getitem_last history = inr newest ->
    exists r,
      StreamlitApp.pct_change_over history current_price minutes = inr r /\
      forall o,
        find (fun row => time row <=?
                           time newest - timedelta_minutes minutes)
             history = Some o ->
        (price o <= 0)%R -> r = 0%R).
Proof.
  split.
  - intros now. eexists. split; [apply app_pct_change_over|].
    intros o -> Hneg. cbn. destruct (Rgt_dec (price o) 0); [lra | reflexivity].
  - intros newest Hlast. eexists.
    split; [apply (streamlit_pct_change_over _ newest); exact Hlast|].
    intros o -> Hneg. cbn. destruct (Rgt_dec (price o) 0); [lra | reflexivity].
Qed.

(** C7. The windows are guarded, yet app.py raises on a history it can
    meet. A price of 100 that is 50 a minute later gives r1 = -0.5 and a
    projected gain of -750; [math.exp(755)] is out of the range of a
    double, and the OverflowError leaves [compute_predictions].
    streamlit_app.py, which calls [np.exp], returns on the same history. *)
Theorem app_compute_predictions_overflows :
  let h := [mkSample 0 100%R; mkSample 60000000 50%R] in
  let now := 60001000 in
  App.pct_change_over now h 50 1 = inr (-0.5)%R /\
  App.pct_change_over now h 50 5 = inr 0%R /\
  App.pct_change_over now h 50 15 = inr 0%R /\
  eval (App.compute_predictions now) [("bitcoin", h)] = inl OverflowError /\
  exists results,
    eval (StreamlitApp.compute_predictions StreamlitApp.stable_sort)
         [("bitcoin", h)] = inr results.
Proof.
  cbv zeta.
  set (h := [mkSample 0 100%R; mkSample 60000000 50%R]).
  assert (H1 : App.pct_change_over 60001000 h 50 1 = inr (-0.5)%R).
  { rewrite app_pct_change_over. cbn. real_tests. f_equal. lra. }
  assert (H5 : App.pct_change_over 60001000 h 50 5 = inr 0%R).
  { rewrite app_pct_change_over. reflexivity. }
  assert (H15 : App.pct_change_over 60001000 h 50 15 = inr 0%R).
  { rewrite app_pct_change_over. reflexivity. }
  repeat (split; [assumption|]). split.
  - rewrite app_compute_eval. cbn [collect length Nat.ltb Nat.leb].
    unfold App.predict.
    replace (getitem_last h) with (inr (mkSample 60000000 50%R) : result _)
      by reflexivity.
    rewrite rbind_inr. cbv zeta. cbn [price].
    rewrite H1, H5, H15, !rbind_inr.
    unfold App.confidence_of. rewrite math_exp_overflow; [reflexivity | lra].
  - apply streamlit_compute_returns, stable_sort_sorts.
Qed.

(** ** format_coin_name *)


(** Replacing a string that does not occur changes nothing. *)
Lemma replace_absent old new s :
  occurs old s = false -> Str.replace old new s = s.
Proof.
  intros Habsent.
  destruct old as [|a old].
  - destruct s; cbn in Habsent; discriminate.
  - unfold Str.replace.
    induction s as [|c s IH]; [reflexivity|].
    cbn [occurs] in Habsent. apply orb_false_iff in Habsent.
    destruct Habsent as [Hhere Hlater].
    cbn [Str.replace_from]. rewrite Hhere. f_equal. now apply IH.
Qed.

(** An identifier that holds neither special case is title-cased as it
    is. *)
Lemma format_coin_name_plain coin_id :
  occurs "binancecoin" coin_id = false ->
  occurs "ripple" coin_id = false ->
  format_coin_name coin_id = Str.title coin_id.
Proof.
  intros Hb Hr. unfold format_coin_name.
  now rewrite (replace_absent _ _ _ Hb), (replace_absent _ _ _ Hr).
Qed.

(** C9. The replacement of "ripple" by "XRP" does not survive the
    title-casing that follows it: the name of "ripple" is "Xrp". The name
    of "binancecoin" is "Binance Coin", and the other identifiers of the
    list are title-cased as they are. *)
Theorem format_coin_name_ripple :
  format_coin_name "ripple" = "Xrp" /\
  format_coin_name "ripple" <> "XRP" /\
  Str.replace "ripple" "XRP" (Str.replace "binancecoin" "Binance Coin" "ripple")
  = "XRP" /\
  format_coin_name "binancecoin" = "Binance Coin" /\
  map format_coin_name COINS
  = [ "Bitcoin"; "Ethereum"; "Binance Coin"; "Xrp"; "Cardano";
      "Solana"; "Dogecoin"; "Tron"; "Polkadot"; "Litecoin" ].
Proof.
  repeat apply conj; try reflexivity.
  cbv. discriminate.
Qed.

(** ** fetch_prices *)

Lemma is_none_false v : is_none v = false <-> v <> PNone.
Proof. destruct v; cbn; split; congruence. Qed.

Lemma quote_of_complete d coin p t :
  quote_of d coin = Some (p, t) <-> complete_quote d coin p t.
Proof.
  unfold quote_of, complete_quote. split.
  - destruct (Dict.get d coin) as [[| | | | | |info]|]; try discriminate.
    destruct (Dict.get info "usd") as [p'|] eqn:Husd; [|discriminate].
    destruct (Dict.get info "last_updated_at") as [ts|] eqn:Hupd;
      [|discriminate].
    destruct (is_none p') eqn:Hp; [discriminate|].
    destruct (is_none ts) eqn:Hts; [discriminate|]. cbn [orb].
    destruct (utcfromtimestamp ts) as [|t'] eqn:Ht; [discriminate|].
    intros [= -> ->]. exists info, ts.
    rewrite is_none_false in Hp, Hts. auto 7.
  - intros (info & ts & -> & -> & Hp & -> & Hts & ->).
    rewrite <- is_none_false in Hp, Hts. now rewrite Hp, Hts.
Qed.

(** On an entry of the shape it takes, a round of the loop returns. *)
Lemma fetch_coin_shaped d prices coin :
  quote_shaped d coin ->
  fetch_coin (PDict d) prices coin = inr (store_quote d prices coin).
Proof.
  unfold quote_shaped, fetch_coin, store_quote, quote_of, py_get.
  destruct (Dict.get d coin) as [v|]; [|reflexivity].
  rewrite rbind_inr.
  intros [Hfalse | (info & -> & Htime)].
  - rewrite Hfalse. cbn [negb].
    destruct v; try reflexivity. cbn in Hfalse.
    destruct d0; [reflexivity | discriminate].
  - destruct info as [|kv info]; [reflexivity|].
    set (i := kv :: info) in *. cbn [truthy negb].
    destruct (Dict.get i "usd") as [p|] eqn:Hp;
      destruct (Dict.get i "last_updated_at") as [ts|] eqn:Hts;
      rewrite !rbind_inr; cbn [is_none orb]; try reflexivity.
    + destruct (is_none p) eqn:Hnp; [reflexivity|].
      destruct (is_none ts) eqn:Hnts; [reflexivity|]. cbn [orb].
      rewrite is_none_false in Hnp, Hnts.
      destruct (Htime p ts eq_refl Hnp eq_refl Hnts) as [t ->].
      reflexivity.
    + destruct (is_none p); reflexivity.
Qed.

Lemma fold_fetch_shaped d l prices :
  (forall c, In c l -> quote_shaped d c) ->
  fold_result l prices (fetch_coin (PDict d))
  = inr (fold_left (store_quote d) l prices).
Proof.
  revert prices. induction l as [|c l IH]; intros prices Hshaped;
    cbn [fold_result fold_left].
  - reflexivity.
  - rewrite fetch_coin_shaped by (apply Hshaped; now left).
    rewrite rbind_inr. apply IH. intros c' Hc'. apply Hshaped. now right.
Qed.

Lemma get_store_quote d prices coin c :
  Dict.get (store_quote d prices coin) c
  = if String.eqb coin c
    then match quote_of d c with
         | Some q => Some q
         | None => Dict.get prices c
         end
    else Dict.get prices c.
Proof.
  unfold store_quote. destruct (String.eqb_spec coin c) as [->|Hne].
  - destruct (quote_of d c); [apply get_set_same | reflexivity].
  - destruct (quote_of d coin); [now apply get_set_other | reflexivity].
Qed.

(** What the loop has stored in the end for a coin [c]. *)
Lemma get_fold_store d l prices c :
  Dict.get (fold_left (store_quote d) l prices) c
  = if existsb (fun coin => String.eqb coin c) l
    then match quote_of d c with
         | Some q => Some q
         | None => Dict.get prices c
         end
    else Dict.get prices c.
Proof.
  revert prices. induction l as [|coin l IH]; intros prices; cbn.
  - reflexivity.
  - rewrite IH, get_store_quote.
    destruct (existsb _ l), (String.eqb coin c), (quote_of d c); reflexivity.
Qed.

Lemma existsb_eqb_in l c :
  existsb (fun coin => String.eqb coin c) l = true <-> In c l.
Proof.
  rewrite existsb_exists. split.
  - intros (x & Hin & Heq). apply String.eqb_eq in Heq. now subst.
  - intros Hin. exists c. split; [exact Hin | apply String.eqb_refl].
Qed.

(** C5, as the code has it. [fetch_prices] returns the empty mapping when
    the request fails, when the status is an error status and when the
    body is not JSON. On a JSON object in which the entry of every listed
    coin is absent, counts as false, or is an object whose update time,
    when it comes with a price, is a number of seconds in the range of
    [datetime], it returns the mapping that holds exactly the listed coins
    whose entry has a price and an update time, neither of them null. *)
Theorem fetch_prices_contract :
  fetch_prices Unreachable = inr [] /\
  (forall status body,
      400 <= status < 600 -> fetch_prices (Response status body) = inr []) /\
  (forall status, fetch_prices (Response status None) = inr []) /\
  (forall status d,
      ~ (400 <= status < 600) ->
      (forall c, In c COINS -> quote_shaped d c) ->
      exists prices,
        fetch_prices (Response status (Some (PDict d))) = inr prices /\
        forall c p t,
          Dict.get prices c = Some (p, t)
          <-> In c COINS /\ complete_quote d c p t).
Proof.
  repeat apply conj.
  - reflexivity.
  - intros status body Herr. unfold fetch_prices, requests_get.
    rewrite rbind_inr. unfold raise_for_status. cbn [fst].
    destruct (Z.leb_spec 400 status); [|lia].
    destruct (Z.ltb_spec status 600); [|lia]. reflexivity.
  - intros status. unfold fetch_prices, requests_get.
    rewrite rbind_inr. unfold raise_for_status, json. cbn [fst snd].
    destruct ((400 <=? status) && (status <? 600)); reflexivity.
  - intros status d Hok Hshaped.
    exists (fold_left (store_quote d) COINS []). split.
    + unfold fetch_prices, requests_get.
      rewrite rbind_inr. unfold raise_for_status, json. cbn [fst snd].
      destruct (Z.leb_spec 400 status); destruct (Z.ltb_spec status 600);
        try lia; cbn [andb]; rewrite rbind_inr;
        now apply fold_fetch_shaped.
    + intros c p t. rewrite get_fold_store, <- quote_of_complete.
      destruct (existsb _ COINS) eqn:Hin.
      * apply existsb_eqb_in in Hin.
        destruct (quote_of d c) as [q|]; cbn [Dict.get];
          intuition congruence.
      * assert (Hout : ~ In c COINS).
        { intros H. apply existsb_eqb_in in H. congruence. }
        cbn [Dict.get]. intuition congruence.
Qed.

(** C5 as worded fails on a body that is JSON without being an object of
    the expected shape: on a JSON array the call raises AttributeError to
    its caller, and on a timestamp that is a string TypeError. A price
    that is present is stored whether or not it is a number. *)
Lemma fetch_prices_counterexample :
  fetch_prices (Response 200 (Some (PList []))) = inl AttributeError /\
  fetch_prices
    (Response 200
       (Some (PDict [("bitcoin",
                      PDict [("usd", PInt 1);
                             ("last_updated_at", PStr "now")])])))
  = inl TypeError /\
  fetch_prices
    (Response 200
       (Some (PDict [("bitcoin",
                      PDict [("usd", PStr "n/a");
                             ("last_updated_at", PInt 0)])])))
  = inr [("bitcoin", (PStr "n/a", 0))].
Proof. repeat apply conj; reflexivity. Qed.

(** ** The theorems at concrete inputs *)

(** Two samples two minutes apart, the clock read ten seconds later. *)
Lemma window_return_of_first_old_sample_witness :
  let history := [mkSample 0 100%R; mkSample 120000000 105%R] in
  let newest := mkSample 120000000 105%R in
  (2 <= length history)%nat /\
  In 1 [1; 5; 15] /\
  getitem_last history = inr newest /\
  StreamlitApp.sorts_by_time StreamlitApp.stable_sort /\
  increasing history /\
  (exists r, App.pct_change_over 130000000 history 105 1 = inr r) /\
  (exists r,
      StreamlitApp.pct_change_over (StreamlitApp.stable_sort history) 105 1
      = inr r).
Proof.
  cbv zeta.
  set (history := [mkSample 0 100%R; mkSample 120000000 105%R]).
  assert (Hlen : (2 <= length history)%nat) by (cbn; lia).
  assert (Hw : In 1 [1; 5; 15]) by (cbn; tauto).
  assert (Hinc : increasing history)
    by (unfold increasing; repeat constructor; cbn; lia).
  destruct (window_return_of_first_old_sample history
              (mkSample 120000000 105%R) 1 Hlen Hw eq_refl)
    as [Happ Hstreamlit].
  destruct (Happ 130000000) as (old & r & _ & Hr & _).
  destruct (Hstreamlit StreamlitApp.stable_sort stable_sort_sorts Hinc)
    as (old' & r' & _ & Hr' & _).
  repeat (split; [first [assumption | reflexivity | apply stable_sort_sorts]|]).
  split; [exists r; exact Hr | exists r'; exact Hr'].
Defined.

(** One coin with two samples, in a store of its own. *)
Lemma projected_gain_formula_witness :
  let h := [mkSample 0 100%R; mkSample 120000000 105%R] in
  let histories := [("bitcoin", h)] in
  In ("bitcoin", h) histories /\
  (2 <= length h)%nat /\
  StreamlitApp.sorts_by_time StreamlitApp.stable_sort /\
  exists results p,
    eval (StreamlitApp.compute_predictions StreamlitApp.stable_sort) histories
    = inr results /\
    In p results /\ coin p = "bitcoin".
Proof.
  cbv zeta.
  set (h := [mkSample 0 100%R; mkSample 120000000 105%R]).
  assert (Hin : In ("bitcoin", h) [("bitcoin", h)]) by (left; reflexivity).
  assert (Hlen : (2 <= length h)%nat) by (cbn; lia).
  destruct projected_gain_formula as [Hgeneral _].
  destruct (Hgeneral _ _ _ Hin Hlen) as [_ Hstreamlit].
  destruct (Hstreamlit StreamlitApp.stable_sort stable_sort_sorts)
    as (results & p & _ & _ & _ & _ & Hres & Hp & Hc & _).
  repeat (split; [first [assumption | apply stable_sort_sorts]|]).
  exists results, p. auto.
Defined.

(** A history of 60 samples, a minute apart, and one quote more. *)
Lemma update_histories_keeps_60_witness :
  let old := map (fun n => mkSample (Z.of_nat n * 60000000) 1%R) (seq 0 60) in
  let histories := [("bitcoin", old)] in
  let prices := [("bitcoin", (2%R, 0))] in
  Dict.wf prices /\
  bounded histories /\
  length (history_of histories "bitcoin") = 60%nat /\
  exists kept,
    Dict.get (exec (update_histories 3600000000 prices) histories) "bitcoin"
    = Some kept /\
    length kept = 60%nat /\
    nth_error kept 0 = nth_error old 1.
Proof.
  cbv zeta.
  set (old := map (fun n => mkSample (Z.of_nat n * 60000000) 1%R) (seq 0 60)).
  assert (Hlen : length old = 60%nat)
    by (unfold old; rewrite length_map, length_seq; reflexivity).
  assert (Hwf : Dict.wf [("bitcoin", (2%R, 0))])
    by (unfold Dict.wf; cbn; repeat constructor; cbn; tauto).
  assert (Hb : bounded [("bitcoin", old)])
    by (unfold bounded; repeat constructor; cbn; lia).
  destruct (update_histories_keeps_60 R 3600000000
              [("bitcoin", (2%R, 0))] [("bitcoin", old)] Hwf Hb)
    as (_ & _ & Hquoted).
  destruct (Hquoted "bitcoin" 2%R 0 (or_introl eq_refl))
    as (kept & dropped & Hget & _ & _ & Hfull).
  destruct (Hfull Hlen) as [Hkept Holdest].
  repeat (split; [assumption|]).
  exists kept. auto.
Defined.

(** A payload with one complete quote; a status of 404. *)
Lemma fetch_prices_contract_witness :
  let d := [("bitcoin", PDict [("usd", PInt 1); ("last_updated_at", PInt 0)])] in
  400 <= 404 < 600 /\
  ~ (400 <= 200 < 600) /\
  (forall c, In c COINS -> quote_shaped d c) /\
  fetch_prices (Response 404 (Some (PDict d))) = inr [] /\
  exists prices,
    fetch_prices (Response 200 (Some (PDict d))) = inr prices /\
    Dict.get prices "bitcoin" = Some (PInt 1, 0).
Proof.
  cbv zeta.
  set (d := [("bitcoin",
              PDict [("usd", PInt 1); ("last_updated_at", PInt 0)])]).
  assert (Herr : 400 <= 404 < 600) by lia.
  assert (Hok : ~ (400 <= 200 < 600)) by lia.
  assert (Hshaped : forall c, In c COINS -> quote_shaped d c).
  { intros c Hc. unfold quote_shaped.
    destruct (String.eqb_spec "bitcoin" c) as [<-|Hne].
    - right. eexists. split; [reflexivity|].
      intros p ts _ _ Hts _. cbn in Hts. injection Hts as <-.
      exists 0. reflexivity.
    - unfold d. cbn [Dict.get].
      destruct (String.eqb_spec "bitcoin" c); [contradiction | exact I]. }
  destruct fetch_prices_contract as (_ & Hstatus & _ & Hobject).
  destruct (Hobject 200 d Hok Hshaped) as (prices & Hprices & Hexact).
  repeat (split; [assumption|]).
  split; [apply (Hstatus 404 _ Herr)|].
  exists prices. split; [exact Hprices|].
  apply Hexact. split; [unfold COINS; now left|].
  exists [("usd", PInt 1); ("last_updated_at", PInt 0)], (PInt 0).
  repeat (split; [first [reflexivity | discriminate]|]). reflexivity.
Defined.

(** A coin with one sample only. *)
Lemma short_histories_are_left_out_witness :
  let histories := [("bitcoin", [mkSample 0 100%R])] in
  Dict.wf histories /\
  (length (history_of histories "bitcoin") < 2)%nat /\
  StreamlitApp.sorts_by_time StreamlitApp.stable_sort /\
  exists results,
    eval (StreamlitApp.compute_predictions StreamlitApp.stable_sort) histories
    = inr results /\
    ~ In "bitcoin" (map coin results).
Proof.
  cbv zeta.
  set (histories := [("bitcoin", [mkSample 0 100%R])]).
  assert (Hwf : Dict.wf histories)
    by (unfold Dict.wf; cbn; repeat constructor; cbn; tauto).
  assert (Hshort : (length (history_of histories "bitcoin") < 2)%nat)
    by (cbn; lia).
  destruct (short_histories_are_left_out _ "bitcoin" Hwf Hshort)
    as [_ Hstreamlit].
  repeat (split; [first [assumption | apply stable_sort_sorts]|]).
  exact (Hstreamlit StreamlitApp.stable_sort stable_sort_sorts).
Defined.

(** The same quote stored twice at the same time, in an empty store. *)
Lemma update_histories_twice_appends_two_witness :
  let prices := [("bitcoin", (2%R, 0))] in
  Dict.wf prices /\
  In ("bitcoin", (2%R, 0)) prices /\
  length
    (history_of
       (exec (update_histories 5 prices)
          (exec (update_histories 5 prices) [])) "bitcoin") = 2%nat.
Proof.
  cbv zeta.
  assert (Hwf : Dict.wf [("bitcoin", (2%R, 0))])
    by (unfold Dict.wf; cbn; repeat constructor; cbn; tauto).
  assert (Hin : In ("bitcoin", (2%R, 0)) [("bitcoin", (2%R, 0))])
    by (left; reflexivity).
  destruct (update_histories_twice_appends_two R 5 5
              [("bitcoin", (2%R, 0))] [] "bitcoin" 2%R 0 Hwf Hin)
    as [_ Hlen].
  repeat (split; [assumption|]).
  exact Hlen.
Defined.

(** * Further properties *)

(** ** update_histories: what it leaves, what it keeps in order *)

Lemma in_get {V : Type} (d : Dict.t V) k v :
  Dict.get d k = Some v -> In (k, v) d.
Proof.
  induction d as [|[k0 v0] d IH]; simpl; [discriminate|].
  destruct (String.eqb_spec k0 k) as [->|Hne]; intros H.
  - inversion H; subst. now left.
  - right. auto.
Qed.

Lemma keys_set {V : Type} (d : Dict.t V) k v c :
  In c (Dict.keys (Dict.set d k v)) <-> In c (Dict.keys d) \/ c = k.
Proof.
  unfold Dict.keys. induction d as [|[k0 v0] d IH]; simpl.
  - intuition.
  - destruct (String.eqb_spec k0 k) as [->|Hne]; simpl.
    + intuition.
    + rewrite IH. intuition.
Qed.

Lemma keys_fold_append {P : Type} now (prices : Prices P)
    (histories : Histories P) c :
  In c (Dict.keys (fold_left (append_sample now) prices histories))
  <-> In c (Dict.keys histories) \/ In c (Dict.keys prices).
Proof.
  revert histories. induction prices as [|q prices IH]; intros histories;
    cbn [fold_left].
  - cbn. tauto.
  - rewrite IH. unfold append_sample. rewrite keys_set. cbn. intuition.
Qed.

(** X1. A call of [update_histories] touches the histories of the quoted
    coins only: the history of a coin without a quote is what it was, no
    key of the store is dropped, and the only keys that appear are quoted
    coins. *)
Theorem update_histories_frame :
  forall (P : Type) (now : datetime) (prices : Prices P)
         (histories : Histories P),
    let histories' := exec (update_histories now prices) histories in
    (forall coin, ~ In coin (Dict.keys prices) ->
                  Dict.get histories' coin = Dict.get histories coin) /\
    (forall coin, In coin (Dict.keys histories) ->
                  In coin (Dict.keys histories')) /\
    (forall coin, In coin (Dict.keys histories') ->
                  In coin (Dict.keys histories) \/ In coin (Dict.keys prices)).
Proof.
  intros P now prices histories histories'.
  unfold histories', exec.
  pose proof (update_histories_run now prices histories) as Hrun.
  unfold run in Hrun. rewrite Hrun. cbn [snd].
  repeat apply conj.
  - intros coin Hout. now apply fold_append_other.
  - intros coin Hin. apply keys_fold_append. now left.
  - intros coin Hin. apply keys_fold_append in Hin. exact Hin.
Qed.

Section TimeOrder.
Context {P : Type}.
Implicit Types (h : History P).

Lemma sorted_app_one (R : Sample P -> Sample P -> Prop) h x :
  StronglySorted R h -> Forall (fun a => R a x) h ->
  StronglySorted R (h ++ [x]).
Proof.
  induction 1 as [|a h Hs IH Ha]; intros Hx; cbn.
  - repeat constructor.
  - inversion Hx as [|? ? Hax Hx']; subst.
    constructor; [now apply IH|].
    apply Forall_app. split; [exact Ha | now repeat constructor].
Qed.

Lemma sorted_skipn (R : Sample P -> Sample P -> Prop) n h :
  StronglySorted R h -> StronglySorted R (skipn n h).
Proof.
  revert h. induction n as [|n IH]; intros h Hs; [exact Hs|].
  destruct h as [|a h]; [exact Hs|]. cbn. apply IH. now inversion Hs.
Qed.

Lemma Forall_skipn (Q : Sample P -> Prop) n h :
  Forall Q h -> Forall Q (skipn n h).
Proof.
  revert h. induction n as [|n IH]; intros h Hq; [exact Hq|].
  destruct h as [|a h]; [exact Hq|]. cbn. apply IH. now inversion Hq.
Qed.

Lemma chronological_append now h p :
  chronological now h ->
  chronological now (last_n 60 (h ++ [mkSample now p])).
Proof.
  intros [Hs Hle]. unfold chronological, last_n. split.
  - apply sorted_skipn. apply sorted_app_one; [exact Hs|].
    eapply Forall_impl; [|exact Hle]. intros a Ha. exact Ha.
  - apply Forall_skipn. apply Forall_app. split; [exact Hle|].
    repeat constructor. cbn. lia.
Qed.

Lemma chronological_history_of now (histories : Histories P) coin :
  Forall (fun kv => chronological now (snd kv)) histories ->
  chronological now (history_of histories coin).
Proof.
  intros Hall. unfold history_of.
  destruct (Dict.get histories coin) as [h|] eqn:Hget.
  - apply in_get in Hget. rewrite Forall_forall in Hall.
    exact (Hall _ Hget).
  - split; constructor.
Qed.

Lemma fold_append_chronological now (prices : Prices P)
    (histories : Histories P) :
  Forall (fun kv => chronological now (snd kv)) histories ->
  Forall (fun kv => chronological now (snd kv))
         (fold_left (append_sample now) prices histories).
Proof.
  revert histories.
  induction prices as [|q prices IH]; intros histories Hall; cbn; auto.
  apply IH. unfold append_sample.
  apply (Forall_set (chronological now)); [exact Hall|].
  apply chronological_append. now apply chronological_history_of.
Qed.
End TimeOrder.

(** X2. When the clock has not gone back, that is when no stored sample is
    later than [now], a call of [update_histories] keeps every history in
    order of time, with no sample later than [now]. *)
Theorem update_histories_keeps_time_order :
  forall (P : Type) (now : datetime) (prices : Prices P)
         (histories : Histories P),
    Forall (fun kv => chronological now (snd kv)) histories ->
    Forall (fun kv => chronological now (snd kv))
           (exec (update_histories now prices) histories).
Proof.
  intros P now prices histories Hall. unfold exec.
  pose proof (update_histories_run now prices histories) as Hrun.
  unfold run in Hrun. rewrite Hrun. cbn [snd].
  now apply fold_append_chronological.
Qed.

(** The clock gone back breaks the order: the new sample still goes last. *)
Lemma update_histories_clock_gone_back :
  exec (update_histories 5 [("bitcoin", (1%R, 0))])
       [("bitcoin", [mkSample 9 1%R])]
  = [("bitcoin", [mkSample 9 1%R; mkSample 5 1%R])].
Proof. reflexivity. Qed.

Section Successive.
Context {P : Type}.

Lemma update_each_run (calls : list (datetime * Prices P))
    (histories : Histories P) :
  run (update_each calls) histories
  = (inr tt,
     fold_left (fun hs call => fold_left (append_sample (fst call))
                                         (snd call) hs)
               calls histories).
Proof.
  revert histories. induction calls as [|[now prices] calls IH];
    intros histories; cbn [update_each fold_left].
  - reflexivity.
  - rewrite run_bind, update_histories_run. apply IH.
Qed.

Lemma update_each_quoted coin (calls : list (datetime * Prices P))
    (samples : list (Sample P)) (histories : Histories P) :
  Forall2 (quoted_as coin) calls samples ->
  samples <> [] ->
  Dict.get
    (fold_left (fun hs call => fold_left (append_sample (fst call))
                                         (snd call) hs)
               calls histories) coin
  = Some (last_n 60 (history_of histories coin ++ samples)).
Proof.
  intros Hall. revert histories.
  induction Hall as [|[now prices] s calls samples Hq Hall IH];
    intros histories Hne; [congruence|].
  destruct Hq as (Hwf & Htime & u & Hin). cbn [fst snd] in *.
  cbn [fold_left fst snd].
  assert (Hfirst :
    Dict.get (fold_left (append_sample now) prices histories) coin
    = Some (last_n 60 (history_of histories coin ++ [s]))).
  { rewrite (fold_append_quoted now prices histories coin (price s) u Hwf Hin).
    destruct s as [t p]. cbn in Htime. subst t. reflexivity. }
  destruct samples as [|s' samples].
  - inversion Hall; subst. cbn [fold_left]. exact Hfirst.
  - rewrite IH by discriminate.
    unfold history_of at 1. rewrite Hfirst.
    rewrite last_n_app_last_n, <- app_assoc. reflexivity.
Qed.
End Successive.

(** X3. The histories are first in, first out. After any number of calls
    that each quote a coin, its history is the old history followed by the
    new samples in the order of the calls, cut to its last 60 entries; from
    60 calls on, nothing of the old history is left. *)
Theorem update_histories_first_in_first_out :
  forall (P : Type) (coin : string) (calls : list (datetime * Prices P))
         (samples : list (Sample P)) (histories : Histories P),
    Forall2 (quoted_as coin) calls samples ->
    samples <> [] ->
    let histories' := exec (update_each calls) histories in
    Dict.get histories' coin
    = Some (last_n 60 (history_of histories coin ++ samples)) /\
    ((60 <= length samples)%nat ->
     Dict.get histories' coin = Some (last_n 60 samples)).
Proof.
  intros P coin calls samples histories Hall Hne histories'.
  assert (Hget : Dict.get histories' coin
                 = Some (last_n 60 (history_of histories coin ++ samples))).
  { unfold histories', exec.
    pose proof (update_each_run calls histories) as Hrun.
    unfold run in Hrun. rewrite Hrun. cbn [snd].
    now apply update_each_quoted. }
  split; [exact Hget|].
  intros Hlen. rewrite Hget. f_equal.
  unfold last_n. rewrite length_app, skipn_app.
  replace (length (history_of histories coin) + length samples - 60
           - length (history_of histories coin))%nat
    with (length samples - 60)%nat by lia.
  rewrite skipn_all2 by lia. reflexivity.
Qed.

(** ** fetch_prices: the mapping it returns, the exceptions it lets out *)

Lemma result_bind_inl {A B : Type} (m : result A) (k : A -> result B) e :
  bind m k = inl e -> m = inl e \/ exists a, m = inr a /\ k a = inl e.
Proof.
  intros H. destruct m as [e'|a]; [left | right; eauto].
  injection H as ->. reflexivity.
Qed.

Lemma in_datetime_range_inv us t :
  in_datetime_range us = inr t -> t = us /\ datetime_min <= t <= datetime_max.
Proof.
  unfold in_datetime_range.
  destruct (Z.leb_spec datetime_min us); destruct (Z.leb_spec us datetime_max);
    cbn [andb]; try discriminate.
  intros [= <-]. lia.
Qed.

Lemma datetime_from_timet_and_us_range us t :
  datetime_from_timet_and_us us = inr t ->
  t = us /\ datetime_min <= t <= datetime_max.
Proof.
  unfold datetime_from_timet_and_us. cbv zeta.
  destruct (negb _); [discriminate|].
  destruct (negb _); [discriminate|].
  apply in_datetime_range_inv.
Qed.

(** The three ranges are nested: a time that [datetime] holds is one
    that [gmtime] and [time_t] hold. *)
Lemma datetime_from_timet_and_us_in_range us :
  datetime_min <= us <= datetime_max ->
  datetime_from_timet_and_us us = inr us.
Proof.
  intros Hus. unfold datetime_from_timet_and_us. cbv zeta.
  assert (Hsec : -62135596800 <= us / 1000000 <= 253402300799).
  { unfold datetime_min, datetime_max in Hus. split.
    - apply Z.div_le_lower_bound; lia.
    - apply Z.lt_succ_r. apply Z.div_lt_upper_bound; lia. }
  unfold time_t_min, time_t_max, gmtime_min, gmtime_max.
  rewrite (proj2 (Z.leb_le (- 2 ^ 63) _)) by lia.
  rewrite (proj2 (Z.leb_le _ (2 ^ 63 - 1))) by lia.
  rewrite (proj2 (Z.leb_le (-67768040609740800) _)) by lia.
  rewrite (proj2 (Z.leb_le _ 67768036191676799)) by lia.
  cbn [andb negb]. unfold in_datetime_range.
  rewrite (proj2 (Z.leb_le datetime_min us)) by lia.
  rewrite (proj2 (Z.leb_le us datetime_max)) by lia.
  reflexivity.
Qed.

Lemma datetime_from_timet_and_us_exn us e :
  datetime_from_timet_and_us us = inl e ->
  e = ValueError \/ e = OverflowError \/ e = OSError.
Proof.
  unfold datetime_from_timet_and_us, in_datetime_range. cbv zeta.
  destruct (negb _); [intros [= <-]; tauto|].
  destruct (negb _); [intros [= <-]; tauto|].
  destruct (_ && _); [discriminate|]. intros [= <-]. tauto.
Qed.

Lemma utcfromtimestamp_range v t :
  utcfromtimestamp v = inr t -> datetime_min <= t <= datetime_max.
Proof.
  destruct v; cbn [utcfromtimestamp]; try discriminate; intros H;
    apply datetime_from_timet_and_us_range in H; tauto.
Qed.

(** [utcfromtimestamp] raises TypeError on what is not a number, and on a
    number out of range ValueError, OverflowError or OSError, by how far
    out it is. *)
Lemma utcfromtimestamp_exn v e :
  utcfromtimestamp v = inl e ->
  e = TypeError \/ e = ValueError \/ e = OverflowError \/ e = OSError.
Proof.
  destruct v; cbn [utcfromtimestamp];
    try (intros [= <-]; now left);
    intros H; apply datetime_from_timet_and_us_exn in H; tauto.
Qed.

(** A round of the loop stores nothing, or stores the quote of its coin. *)
Lemma fetch_coin_returns data prices coin prices' :
  fetch_coin data prices coin = inr prices' ->
  prices' = prices \/
  exists p t,
    prices' = Dict.set prices coin (p, t) /\
    p <> PNone /\ datetime_min <= t <= datetime_max.
Proof.
  unfold fetch_coin. intros H.
  apply rbind_inv in H. destruct H as (info & _ & H).
  destruct (negb (truthy info)); [left; now injection H|].
  apply rbind_inv in H. destruct H as (p & _ & H).
  apply rbind_inv in H. destruct H as (ts & _ & H).
  destruct (is_none p) eqn:Hp; [left; now injection H|].
  destruct (is_none ts); [left; now injection H|]. cbn [orb] in H.
  apply rbind_inv in H. destruct H as (t & Ht & H).
  right. exists p, t. split; [now injection H|].
  split; [now apply is_none_false | now apply utcfromtimestamp_range in Ht].
Qed.

Lemma fetch_coin_raises data prices coin e :
  fetch_coin data prices coin = inl e ->
  e = AttributeError \/ e = TypeError \/ e = ValueError \/
  e = OverflowError \/ e = OSError.
Proof.
  assert (Hget : forall v k e', py_get v k = inl e' -> e' = AttributeError).
  { intros v k e'. destruct v; cbn; try (now intros [= <-]).
    destruct (Dict.get d k); discriminate. }
  unfold fetch_coin. intros H.
  apply result_bind_inl in H. destruct H as [H | (info & _ & H)];
    [left; eapply Hget; exact H|].
  destruct (negb (truthy info)); [discriminate|].
  apply result_bind_inl in H. destruct H as [H | (p & _ & H)];
    [left; eapply Hget; exact H|].
  apply result_bind_inl in H. destruct H as [H | (ts & _ & H)];
    [left; eapply Hget; exact H|].
  destruct (is_none p || is_none ts); [discriminate|].
  apply result_bind_inl in H. destruct H as [H | (t & _ & H)];
    [|discriminate].
  right. now apply utcfromtimestamp_exn in H.
Qed.

Lemma keys_set_fresh {V : Type} (d : Dict.t V) k v :
  ~ In k (Dict.keys d) -> Dict.keys (Dict.set d k v) = Dict.keys d ++ [k].
Proof.
  unfold Dict.keys. induction d as [|[k0 v0] d IH]; cbn; intros Hfresh.
  - reflexivity.
  - destruct (String.eqb_spec k0 k) as [->|Hne]; [tauto|].
    cbn. f_equal. apply IH. tauto.
Qed.

Lemma in_set {V : Type} (d : Dict.t V) k v c w :
  In (c, w) (Dict.set d k v) -> In (c, w) d \/ (c = k /\ w = v).
Proof.
  induction d as [|[k0 v0] d IH]; cbn.
  - intros [[= <- <-]|[]]. now right.
  - destruct (String.eqb_spec k0 k) as [->|Hne]; cbn.
    + intros [[= <- <-]|H]; [right | left]; auto.
    + intros [H|H]; [now left; left|].
      destruct (IH H) as [H'|H']; [left; now right | now right].
Qed.

(** The loop over a list of distinct coins, none of them stored yet. *)
Lemma fold_fetch_keys data (good : pyval * datetime -> Prop) l :
  NoDup l ->
  (forall p t, p <> PNone -> datetime_min <= t <= datetime_max -> good (p, t)) ->
  forall acc prices,
    (forall c, In c l -> ~ In c (Dict.keys acc)) ->
    Forall (fun kv => good (snd kv)) acc ->
    fold_result l acc (fetch_coin data) = inr prices ->
    (exists keep, Dict.keys prices = Dict.keys acc ++ filter keep l) /\
    Forall (fun kv => good (snd kv)) prices.
Proof.
  intros Hnd Hgood. induction Hnd as [|c l Hc Hnd IH];
    intros acc prices Hfresh Hacc Hfold; cbn [fold_result] in Hfold.
  - injection Hfold as <-. split; [|exact Hacc].
    exists (fun _ => true). cbn. now rewrite app_nil_r.
  - apply rbind_inv in Hfold. destruct Hfold as (acc1 & Hround & Hfold).
    apply fetch_coin_returns in Hround.
    destruct Hround as [-> | (p & t & -> & Hp & Ht)].
    + destruct (IH acc prices) as [[keep Hkeys] Hall]; auto.
      { intros c' Hc'. apply Hfresh. now right. }
      split; [|exact Hall].
      exists (fun x => if String.eqb x c then false else keep x).
      cbn [filter]. rewrite String.eqb_refl, Hkeys. f_equal.
      apply filter_ext_in. intros x Hx.
      destruct (String.eqb_spec x c) as [->|]; [contradiction | reflexivity].
    + assert (Hcfresh : ~ In c (Dict.keys acc)) by (apply Hfresh; now left).
      destruct (IH (Dict.set acc c (p, t)) prices) as [[keep Hkeys] Hall].
      { intros c' Hc'. rewrite keys_set. intros [Hin | ->].
        - apply (Hfresh c'); [now right | exact Hin].
        - contradiction. }
      { apply (Forall_set good); [exact Hacc | now apply Hgood]. }
      { exact Hfold. }
      split; [|exact Hall].
      exists (fun x => if String.eqb x c then true else keep x).
      cbn [filter]. rewrite String.eqb_refl, Hkeys, keys_set_fresh by exact Hcfresh.
      rewrite <- app_assoc. cbn [app]. do 2 f_equal.
      apply filter_ext_in. intros x Hx.
      destruct (String.eqb_spec x c) as [->|]; [contradiction | reflexivity].
Qed.

Lemma COINS_distinct : NoDup COINS.
Proof.
  unfold COINS. repeat constructor; cbn;
    intuition (try discriminate).
Qed.

(** The three ways out of the [try], and the loop. *)
Lemma fetch_prices_unfold upstream :
  fetch_prices upstream
  = match upstream with
    | Unreachable => inr []
    | Response status body =>
        if (400 <=? status) && (status <? 600) then inr []
        else
          match body with
          | None => inr []
          | Some data => fold_result COINS [] (fetch_coin data)
          end
    end.
Proof.
  destruct upstream as [|status body]; [reflexivity|].
  unfold fetch_prices. cbn [requests_get]. rewrite rbind_inr.
  unfold raise_for_status, json. cbn [fst snd].
  destruct ((400 <=? status) && (status <? 600)); [reflexivity|].
  rewrite rbind_inr. destruct body; reflexivity.
Qed.

(** X4. Whatever the upstream sends, a mapping that [fetch_prices] returns
    has distinct keys, which are coins of the list in the order of the
    list; no price in it is null and every update time is a [datetime]
    between year 1 and year 9999. *)
Theorem fetch_prices_returns_listed_coins :
  forall (upstream : Upstream) (prices : Prices pyval),
    fetch_prices upstream = inr prices ->
    Dict.wf prices /\
    (exists keep, Dict.keys prices = filter keep COINS) /\
    (forall c p t, In (c, (p, t)) prices ->
                   p <> PNone /\ datetime_min <= t <= datetime_max).
Proof.
  intros upstream prices Hfetch.
  assert (Hkeys :
    (exists keep, Dict.keys prices = Dict.keys (@nil (string * (pyval * datetime)))
                                     ++ filter keep COINS) /\
    Forall (fun kv => fst (snd kv) <> PNone /\
                      datetime_min <= snd (snd kv) <= datetime_max) prices).
  { assert (Hempty : forall prices' : Prices pyval,
      (inr [] : result (Prices pyval)) = inr prices' ->
      (exists keep, Dict.keys prices' = Dict.keys (@nil (string * (pyval * datetime)))
                                        ++ filter keep COINS) /\
      Forall (fun kv => fst (snd kv) <> PNone /\
                        datetime_min <= snd (snd kv) <= datetime_max) prices').
    { intros prices' [= <-]. split; [|constructor].
      exists (fun _ => false). reflexivity. }
    rewrite fetch_prices_unfold in Hfetch.
    destruct upstream as [|status [data|]]; [now apply Hempty| |].
    - destruct ((400 <=? status) && (status <? 600)); [now apply Hempty|].
      eapply (fold_fetch_keys data
                (fun q => fst q <> PNone /\
                          datetime_min <= snd q <= datetime_max));
        [apply COINS_distinct | | | | exact Hfetch]; cbn; auto.
    - destruct ((400 <=? status) && (status <? 600)); now apply Hempty. }
  destruct Hkeys as [[keep Hkeys] Hall]. cbn [Dict.keys map app] in Hkeys.
  repeat apply conj.
  - unfold Dict.wf. rewrite Hkeys. apply NoDup_filter, COINS_distinct.
  - now exists keep.
  - intros c p t Hin. rewrite Forall_forall in Hall.
    exact (Hall _ Hin).
Qed.

Lemma fold_fetch_raises data l acc e :
  fold_result l acc (fetch_coin data) = inl e ->
  e = AttributeError \/ e = TypeError \/ e = ValueError \/
  e = OverflowError \/ e = OSError.
Proof.
  revert acc. induction l as [|c l IH]; intros acc H; cbn [fold_result] in H.
  - discriminate.
  - apply result_bind_inl in H. destruct H as [H | (acc1 & _ & H)].
    + now apply fetch_coin_raises in H.
    + now apply IH in H.
Qed.

(** X5. [fetch_prices] lets no failure of the request out: an exception
    that reaches its caller comes from a body that was JSON, under a
    status that is not an error status. It is an AttributeError, from
    [get] on what is not an object, or what [utcfromtimestamp] raises: a
    TypeError, or on a number out of range a ValueError, an OverflowError
    or an OSError. *)
Theorem fetch_prices_raises_only_on_json :
  forall (upstream : Upstream) (e : exn),
    fetch_prices upstream = inl e ->
    (e = AttributeError \/ e = TypeError \/ e = ValueError \/
     e = OverflowError \/ e = OSError) /\
    exists status data,
      upstream = Response status (Some data) /\ ~ (400 <= status < 600).
Proof.
  intros upstream e Hfetch. rewrite fetch_prices_unfold in Hfetch.
  destruct upstream as [|status [data|]]; [discriminate| |].
  - destruct (Z.leb_spec 400 status); destruct (Z.ltb_spec status 600);
      cbn [andb] in Hfetch; try discriminate;
      (split; [eapply fold_fetch_raises; exact Hfetch|]);
      exists status, data; (split; [reflexivity | lia]).
  - destruct ((400 <=? status) && (status <? 600)); discriminate.
Qed.

Lemma fold_result_ext {A B : Type} (f g : B -> A -> result B) l acc :
  (forall b a, In a l -> f b a = g b a) ->
  fold_result l acc f = fold_result l acc g.
Proof.
  revert acc. induction l as [|a l IH]; intros acc Hext; cbn [fold_result].
  - reflexivity.
  - rewrite Hext by now left.
    destruct (g acc a) as [e|b]; [reflexivity|].
    cbn. apply IH. intros b' a' Ha'. apply Hext. now right.
Qed.

(** X6. Only the entries of the listed coins count: two JSON objects that
    agree on the ten coins, whatever else they hold, give the same
    result, returned or raised. *)
Theorem fetch_prices_ignores_unlisted_keys :
  forall (status : Z) (d1 d2 : list (string * pyval)),
    (forall c, In c COINS -> Dict.get d1 c = Dict.get d2 c) ->
    fetch_prices (Response status (Some (PDict d1)))
    = fetch_prices (Response status (Some (PDict d2))).
Proof.
  intros status d1 d2 Hagree. rewrite !fetch_prices_unfold.
  destruct ((400 <=? status) && (status <? 600)); [reflexivity|].
  apply fold_result_ext.
  intros prices c Hc. unfold fetch_coin, py_get.
  now rewrite (Hagree c Hc).
Qed.

(** ** main: one refresh of the store *)

Lemma get_none_not_key {V : Type} (d : Dict.t V) k :
  Dict.get d k = None <-> ~ In k (Dict.keys d).
Proof.
  unfold Dict.keys. induction d as [|[k0 v0] d IH]; simpl.
  - tauto.
  - destruct (String.eqb_spec k0 k).
    + split; [discriminate | tauto].
    + rewrite IH. tauto.
Qed.

(** A refresh counts the run, sets the store up, then fetches; what it
    does next hangs on what the fetch gave. *)
Lemma main_refresh_run upstream now st :
  run (main_refresh upstream now) st
  = let counted := Some (runs st + 1) in
    match fetch_prices upstream with
    | inl e => (inl e, {| autorefresh := counted;
                          price_histories := Some (stored st) |})
    | inr prices =>
        (inr tt,
         {| autorefresh := counted;
            price_histories :=
              Some (if nonempty prices
                    then fold_left (append_sample now) prices (stored st)
                    else stored st) |})
    end.
Proof.
  pose proof (update_histories_run (P := pyval) now) as Hrun.
  unfold run in Hrun.
  unfold main_refresh, run, runs, stored.
  destruct st as [[n|] [hs|]];
    cbn -[update_histories fetch_prices nonempty Z.add];
    destruct (fetch_prices upstream) as [e|prices]; try reflexivity;
    destruct (nonempty prices); try reflexivity;
    unfold on_price_histories; cbn [price_histories autorefresh];
    rewrite Hrun; reflexivity.
Qed.

(** X7. A refresh whose request fails, by the transport, by an error
    status or by a body that is not JSON, leaves the histories as they
    were and returns; an exception that [fetch_prices] lets out leaves
    them as they were too, and goes on out of the refresh. The run is
    counted in every case. *)
Theorem main_refresh_without_quotes :
  forall (now : datetime) (st : SessionState),
    let unchanged := {| autorefresh := Some (runs st + 1);
                        price_histories := Some (stored st) |} in
    run (main_refresh Unreachable now) st = (inr tt, unchanged) /\
    (forall status body,
        400 <= status < 600 ->
        run (main_refresh (Response status body) now) st
        = (inr tt, unchanged)) /\
    (forall status,
        run (main_refresh (Response status None) now) st
        = (inr tt, unchanged)) /\
    (forall upstream e,
        fetch_prices upstream = inl e ->
        run (main_refresh upstream now) st = (inl e, unchanged)).
Proof.
  intros now st unchanged. unfold unchanged. repeat apply conj.
  - rewrite main_refresh_run, fetch_prices_unfold. reflexivity.
  - intros status body Herr.
    rewrite main_refresh_run, fetch_prices_unfold.
    destruct (Z.leb_spec 400 status); [|lia].
    destruct (Z.ltb_spec status 600); [|lia]. reflexivity.
  - intros status. rewrite main_refresh_run, fetch_prices_unfold.
    destruct ((400 <=? status) && (status <? 600)); reflexivity.
  - intros upstream e Hraise. rewrite main_refresh_run, Hraise. reflexivity.
Qed.

(** X8. Whatever the upstream sends, and whether the refresh returns or
    raises, histories of at most 60 samples are histories of at most 60
    samples after it. *)
Theorem main_refresh_keeps_60 :
  forall (upstream : Upstream) (now : datetime) (st : SessionState),
    bounded (stored st) ->
    bounded (stored (exec (main_refresh upstream now) st)).
Proof.
  intros upstream now st Hb. unfold exec.
  pose proof (main_refresh_run upstream now st) as Hrun.
  unfold run in Hrun. rewrite Hrun. cbv zeta.
  destruct (fetch_prices upstream) as [e|prices]; cbn [snd stored price_histories].
  - exact Hb.
  - destruct (nonempty prices); [now apply fold_append_bounded | exact Hb].
Qed.

(** What a shaped payload makes [fetch_prices] return. *)
Lemma fetch_prices_shaped status d :
  ~ (400 <= status < 600) ->
  (forall c, In c COINS -> quote_shaped d c) ->
  fetch_prices (Response status (Some (PDict d)))
  = inr (fold_left (store_quote d) COINS []).
Proof.
  intros Hok Hshaped. rewrite fetch_prices_unfold.
  destruct (Z.leb_spec 400 status); destruct (Z.ltb_spec status 600);
    try lia; cbn [andb]; now apply fold_fetch_shaped.
Qed.

(** X9. Fetching and storing compose. On a JSON object of the expected
    shape, a refresh appends to the history of every listed coin that has
    a complete quote one sample, the price of the quote at the time
    [now], and cuts the history to its last 60 entries; the history of
    any other coin is what it was. *)
Theorem main_refresh_stores_quotes :
  forall (status : Z) (d : list (string * pyval)) (now : datetime)
         (st : SessionState),
    ~ (400 <= status < 600) ->
    (forall c, In c COINS -> quote_shaped d c) ->
    let st' := exec (main_refresh (Response status (Some (PDict d))) now) st in
    eval (main_refresh (Response status (Some (PDict d))) now) st = inr tt /\
    (forall c p t,
        In c COINS -> complete_quote d c p t ->
        Dict.get (stored st') c
        = Some (last_n 60 (history_of (stored st) c ++ [mkSample now p]))) /\
    (forall c,
        (~ In c COINS \/ forall p t, ~ complete_quote d c p t) ->
        Dict.get (stored st') c = Dict.get (stored st) c).
Proof.
  intros status d now st Hok Hshaped st'.
  pose proof (main_refresh_run (Response status (Some (PDict d))) now st)
    as Hrun.
  rewrite (fetch_prices_shaped status d Hok Hshaped) in Hrun.
  cbv zeta in Hrun. unfold st', exec, eval. unfold run in Hrun.
  rewrite Hrun. cbn [fst snd stored price_histories].
  set (prices := fold_left (store_quote d) COINS []).
  assert (Hwf : Dict.wf prices).
  { pose proof (fold_fetch_keys (PDict d) (fun _ => True) COINS
                  COINS_distinct (fun _ _ _ _ => I) [] prices) as Hkeys.
    destruct Hkeys as [[keep Hkeys] _]; [auto | constructor | |].
    - unfold prices. now apply fold_fetch_shaped.
    - unfold Dict.wf. rewrite Hkeys. cbn [Dict.keys map app].
      apply NoDup_filter, COINS_distinct. }
  assert (Hget : forall c, Dict.get prices c
            = if existsb (fun coin => String.eqb coin c) COINS
              then quote_of d c else None).
  { intros c. unfold prices. rewrite get_fold_store. cbn [Dict.get].
    destruct (existsb _ COINS); [|reflexivity].
    now destruct (quote_of d c). }
  repeat apply conj.
  - reflexivity.
  - intros c p t Hc Hquote.
    assert (Hin : In (c, (p, t)) prices).
    { apply in_get. rewrite Hget.
      rewrite (proj2 (existsb_eqb_in COINS c) Hc).
      now apply quote_of_complete. }
    destruct prices as [|q prices'] eqn:Hprices; [destruct Hin|].
    cbn [nonempty]. rewrite <- Hprices in *.
    now apply fold_append_quoted with (u := t).
  - intros c Hnone.
    assert (Hout : ~ In c (Dict.keys prices)).
    { apply get_none_not_key. rewrite Hget.
      destruct (existsb _ COINS) eqn:Hex; [|reflexivity].
      apply existsb_eqb_in in Hex.
      destruct Hnone as [Hnot | Hnone]; [contradiction|].
      destruct (quote_of d c) as [[p t]|] eqn:Hq; [|reflexivity].
      apply quote_of_complete in Hq. now apply Hnone in Hq. }
    destruct (nonempty prices); [|reflexivity].
    now apply fold_append_other.
Qed.

(** ** compute_predictions: which sample the windows use *)

Lemma time_le_trans : Relations_1.Transitive StreamlitApp.time_le.
Proof. intros x y z. unfold StreamlitApp.time_le. lia. Qed.

(** In a history in order of time the scan stops at the first sample or
    finds nothing. *)
Lemma find_in_time_order cutoff (first : Sample R) rest :
  StronglySorted StreamlitApp.time_le (first :: rest) ->
  find (fun entry => time entry <=? cutoff) (first :: rest)
  = if time first <=? cutoff then Some first else None.
Proof.
  intros Hs. cbn [find].
  destruct (Z.leb_spec (time first) cutoff) as [Hle | Hgt]; [reflexivity|].
  inversion Hs as [|? ? _ Hall]; subst. clear Hs.
  induction Hall as [|s rest Hfs Hall IH]; cbn [find]; [reflexivity|].
  unfold StreamlitApp.time_le in Hfs.
  destruct (Z.leb_spec (time s) cutoff); [lia | exact IH].
Qed.

Lemma sorted_frame sort (history : History R) :
  StreamlitApp.sorts_by_time sort ->
  StronglySorted StreamlitApp.time_le (sort history).
Proof.
  intros Hsort. destruct (Hsort history) as [_ Hs].
  apply Sorted_StronglySorted; [apply time_le_trans | exact Hs].
Qed.

(** X10. A window never looks past the earliest sample. In app.py, on a
    history in order of time, and in streamlit_app.py, on the frame it has
    sorted, the return over [w] minutes is the guarded return from the
    first sample when that sample is [w] minutes old or more, and 0
    otherwise; no later sample is ever the old one. *)
Theorem windows_use_earliest_sample :
  (forall now first rest current_price w,
      StronglySorted StreamlitApp.time_le (first :: rest) ->
      App.pct_change_over now (first :: rest) current_price w
      = inr (if time first <=? now - timedelta_minutes w
             then return_from (Some first) current_price
             else 0%R)) /\
  (forall sort history first rest newest current_price w,
      StreamlitApp.sorts_by_time sort ->
      sort history = first :: rest ->
      getitem_last (first :: rest) = inr newest ->
      StreamlitApp.pct_change_over (sort history) current_price w
      = inr (if time first <=? time newest - timedelta_minutes w
             then return_from (Some first) current_price
             else 0%R)).
Proof.
  split.
  - intros now first rest current_price w Hs.
    rewrite app_pct_change_over, (find_in_time_order _ _ _ Hs).
    now destruct (time first <=? now - timedelta_minutes w).
  - intros sort history first rest newest current_price w Hsort Hdf Hlast.
    pose proof (sorted_frame sort history Hsort) as Hs. rewrite Hdf in *.
    rewrite (streamlit_pct_change_over _ newest) by exact Hlast.
    rewrite (find_in_time_order _ _ _ Hs).
    now destruct (time first <=? time newest - timedelta_minutes w).
Qed.

(** A longer window is served only if the shorter ones are. *)
Lemma cutoffs_nest t now :
  t <= now - timedelta_minutes 15 ->
  t <= now - timedelta_minutes 5 /\ t <= now - timedelta_minutes 1.
Proof. unfold timedelta_minutes. lia. Qed.

(** X11. Once the earliest sample of a history is a quarter of an hour
    old, the three returns are one and the same, the return r from that
    sample, and the projected gain is 1720 r: in app.py on a history in
    order of time, whenever it returns a row, and in streamlit_app.py on
    the frame it has sorted. *)
Theorem projected_gain_from_earliest_sample :
  (forall now c first rest newest p,
      StronglySorted StreamlitApp.time_le (first :: rest) ->
      getitem_last (first :: rest) = inr newest ->
      time first <= now - timedelta_minutes 15 ->
      App.predict now c (first :: rest) = inr p ->
      projected_gain p
      = (1720 * return_from (Some first) (price newest))%R) /\
  (forall sort c history first rest newest,
      StreamlitApp.sorts_by_time sort ->
      sort history = first :: rest ->
      getitem_last (first :: rest) = inr newest ->
      time first <= time newest - timedelta_minutes 15 ->
      exists p,
        StreamlitApp.predict sort c history = inr p /\
        projected_gain p
        = (1720 * return_from (Some first) (price newest))%R).
Proof.
  split.
  - intros now c first rest newest p Hs Hlast Hold Hp.
    destruct (cutoffs_nest _ _ Hold) as [Hold5 Hold1].
    apply app_predict_inv in Hp.
    destruct Hp as (newest' & r1 & r5 & r15 & Hlast' & H1 & H5 & H15 & _ & Hg & _).
    rewrite Hlast in Hlast'. injection Hlast' as <-.
    rewrite app_pct_change_over, (find_in_time_order _ _ _ Hs) in H1.
    rewrite app_pct_change_over, (find_in_time_order _ _ _ Hs) in H5.
    rewrite app_pct_change_over, (find_in_time_order _ _ _ Hs) in H15.
    rewrite (proj2 (Z.leb_le _ _) Hold1) in H1.
    rewrite (proj2 (Z.leb_le _ _) Hold5) in H5.
    rewrite (proj2 (Z.leb_le _ _) Hold) in H15.
    cbv iota in H1, H5, H15.
    injection H1 as <-. injection H5 as <-. injection H15 as <-.
    rewrite Hg. unfold return_from.
    generalize (if Rgt_dec (price first) 0
                then ((price newest - price first) / price first)%R
                else 0%R).
    intros r. lra.
  - intros sort c history first rest newest Hsort Hdf Hlast Hold.
    destruct (cutoffs_nest _ _ Hold) as [Hold5 Hold1].
    pose proof (sorted_frame sort history Hsort) as Hs.
    assert (Hlen : (1 <= length history)%nat).
    { destruct (Hsort history) as [Hperm _].
      rewrite (Permutation_length Hperm), Hdf. cbn. lia. }
    destruct (streamlit_predict_returns sort c history Hsort Hlen)
      as (newest' & r1 & r5 & r15 & Hlast' & H1 & H5 & H15 & Hp).
    rewrite Hdf in *. rewrite Hlast in Hlast'. injection Hlast' as <-.
    rewrite (streamlit_pct_change_over _ newest) in H1, H5, H15
      by exact Hlast.
    rewrite (find_in_time_order _ _ _ Hs) in H1.
    rewrite (find_in_time_order _ _ _ Hs) in H5.
    rewrite (find_in_time_order _ _ _ Hs) in H15.
    rewrite (proj2 (Z.leb_le _ _) Hold1) in H1.
    rewrite (proj2 (Z.leb_le _ _) Hold5) in H5.
    rewrite (proj2 (Z.leb_le _ _) Hold) in H15.
    cbv iota in H1, H5, H15.
    injection H1 as <-. injection H5 as <-. injection H15 as <-.
    eexists. split; [exact Hp|]. cbn [projected_gain]. unfold return_from.
    generalize (if Rgt_dec (price first) 0
                then ((price newest - price first) / price first)%R
                else 0%R).
    intros r. lra.
Qed.

(** X12. The two files agree when the clock of app.py reads the time of
    the newest sample. On a history in strictly increasing order of time
    the window returns are the same, a row that app.py returns is the row
    that streamlit_app.py returns, and where streamlit_app.py returns a
    row app.py returns it too or raises OverflowError. *)
Theorem files_agree_at_newest_sample :
  forall sort c (history : History R) newest,
    StreamlitApp.sorts_by_time sort ->
    increasing history ->
    getitem_last history = inr newest ->
    (forall current_price w,
        App.pct_change_over (time newest) history current_price w
        = StreamlitApp.pct_change_over (sort history) current_price w) /\
    (forall p, App.predict (time newest) c history = inr p ->
               StreamlitApp.predict sort c history = inr p) /\
    (forall p, StreamlitApp.predict sort c history = inr p ->
               App.predict (time newest) c history = inr p \/
               App.predict (time newest) c history = inl OverflowError).
Proof.
  intros sort c history newest Hsort Hinc Hlast.
  assert (Hwin : forall current_price w,
    App.pct_change_over (time newest) history current_price w
    = StreamlitApp.pct_change_over (sort history) current_price w).
  { intros current_price w.
    rewrite (sort_increasing sort history Hsort Hinc).
    rewrite app_pct_change_over.
    now rewrite (streamlit_pct_change_over _ newest) by exact Hlast. }
  assert (Hlen : (1 <= length history)%nat).
  { destruct history; [discriminate | cbn; lia]. }
  destruct (streamlit_predict_returns sort c history Hsort Hlen)
    as (newest' & r1 & r5 & r15 & Hlast' & H1 & H5 & H15 & Hs).
  rewrite (sort_increasing sort history Hsort Hinc) in Hlast'.
  rewrite Hlast in Hlast'. injection Hlast' as <-.
  destruct (app_predict_returns (time newest) c history Hlen)
    as (newest' & a1 & a5 & a15 & Hlast' & A1 & A5 & A15 & Ha).
  rewrite Hlast in Hlast'. injection Hlast' as <-.
  rewrite Hwin in A1, A5, A15.
  rewrite H1 in A1. rewrite H5 in A5. rewrite H15 in A15.
  injection A1 as <-. injection A5 as <-. injection A15 as <-.
  cbv zeta in Hs, Ha.
  set (g := ((0.5 * r1 * (30 / 1) + 0.3 * r5 * (30 / 5)
              + 0.2 * r15 * (30 / 15)) * 100.0)%R) in *.
  split; [exact Hwin|]. split.
  - intros p Hp. rewrite Ha in Hp. rewrite Hs.
    destruct (App.confidence_of g) as [e|conf] eqn:Hconf; [discriminate|].
    injection Hp as <-. apply app_confidence_inv in Hconf.
    rewrite streamlit_confidence_logistic, Hconf. reflexivity.
  - intros p Hp. rewrite Hs in Hp. injection Hp as <-. rewrite Ha.
    destruct (App.confidence_of g) as [e|conf] eqn:Hconf.
    + right. unfold App.confidence_of in Hconf.
      apply result_bind_inl in Hconf.
      destruct Hconf as [Hexp | (x & Hexp & Hdiv)].
      * unfold App.math_exp in Hexp.
        destruct (Rlt_dec _ _); [now injection Hexp as <- | discriminate].
      * apply math_exp_inv in Hexp. subst x.
        pose proof (exp_pos (- (g - 5.0))) as Hpos.
        unfold truediv in Hdiv.
        destruct (Req_dec_T _ 0); [lra | discriminate].
    + left. apply app_confidence_inv in Hconf.
      rewrite streamlit_confidence_logistic, Hconf. reflexivity.
Qed.

(** ** compute_predictions: units of price and origin of time *)

Section Rebase.
Variables (k : R) (d : Z).
Hypothesis k_positive : (k > 0)%R.

Lemma getitem_last_map {A B : Type} (g : A -> B) (l : list A) :
  getitem_last (map g l)
  = match getitem_last l with
    | inl e => inl e
    | inr x => inr (g x)
    end.
Proof.
  induction l as [|x l IH]; [reflexivity|].
  destruct l as [|y l]; [reflexivity|]. exact IH.
Qed.

Lemma find_rebase cutoff (h : History R) :
  find (fun entry => time entry <=? cutoff + d) (rebase k d h)
  = option_map (rebase_sample k d) (find (fun entry => time entry <=? cutoff) h).
Proof.
  unfold rebase. induction h as [|s h IH]; cbn [map find]; [reflexivity|].
  cbn [time rebase_sample].
  destruct (Z.leb_spec (time s + d) (cutoff + d));
    destruct (Z.leb_spec (time s) cutoff); try lia; [reflexivity | exact IH].
Qed.

Lemma return_from_rebase old current_price :
  return_from (option_map (rebase_sample k d) old) (k * current_price)
  = return_from old current_price.
Proof.
  destruct old as [o|]; [|reflexivity]. cbn [option_map return_from rebase_sample price].
  destruct (Rgt_dec (k * price o) 0) as [Hk|Hk];
    destruct (Rgt_dec (price o) 0) as [Ho|Ho].
  - field. lra.
  - exfalso. apply Ho.
    destruct (Rle_or_lt (price o) 0) as [Hle|]; [|lra].
    assert (k * price o <= 0)%R by nra. lra.
  - exfalso. apply Hk. apply Rmult_gt_0_compat; assumption.
  - reflexivity.
Qed.

Lemma app_pct_rebase now (h : History R) current_price w :
  App.pct_change_over (now + d) (rebase k d h) (k * current_price) w
  = App.pct_change_over now h current_price w.
Proof.
  rewrite !app_pct_change_over.
  replace (now + d - timedelta_minutes w)
    with (now - timedelta_minutes w + d) by lia.
  now rewrite find_rebase, return_from_rebase.
Qed.

Lemma app_predict_rebase now c (h : History R) :
  App.predict (now + d) c (rebase k d h) = App.predict now c h.
Proof.
  unfold App.predict. unfold rebase at 1. rewrite getitem_last_map.
  fold (rebase k d h).
  destruct (getitem_last h) as [e|newest]; [reflexivity|].
  rewrite !rbind_inr. cbv zeta. cbn [price rebase_sample].
  now rewrite !app_pct_rebase.
Qed.

Lemma increasing_rebase (h : History R) :
  increasing h -> increasing (rebase k d h).
Proof.
  unfold increasing, rebase. induction 1 as [|s h Hs IH Hall]; cbn [map].
  - constructor.
  - constructor; [exact IH|].
    apply Forall_map. eapply Forall_impl; [|exact Hall].
    intros a Ha. cbn in *. lia.
Qed.

Lemma streamlit_predict_rebase sort c (h : History R) :
  StreamlitApp.sorts_by_time sort -> increasing h ->
  StreamlitApp.predict sort c (rebase k d h) = StreamlitApp.predict sort c h.
Proof.
  intros Hsort Hinc.
  unfold StreamlitApp.predict, StreamlitApp.iloc_last. cbv zeta.
  rewrite (sort_increasing sort _ Hsort (increasing_rebase h Hinc)).
  rewrite (sort_increasing sort _ Hsort Hinc).
  unfold rebase at 1. rewrite getitem_last_map. fold (rebase k d h).
  destruct (getitem_last h) as [e|newest] eqn:Hlast; [reflexivity|].
  rewrite !rbind_inr. cbn [price rebase_sample].
  assert (Hlast' : getitem_last (rebase k d h) = inr (rebase_sample k d newest)).
  { unfold rebase. now rewrite getitem_last_map, Hlast. }
  assert (Hpct : forall w,
    StreamlitApp.pct_change_over (rebase k d h) (k * price newest) w
    = StreamlitApp.pct_change_over h (price newest) w).
  { intros w.
    rewrite (streamlit_pct_change_over _ _ _ _ Hlast').
    rewrite (streamlit_pct_change_over _ _ _ _ Hlast).
    cbn [rebase_sample time].
    replace (time newest + d - timedelta_minutes w)
      with (time newest - timedelta_minutes w + d) by lia.
    now rewrite find_rebase, return_from_rebase. }
  now rewrite !Hpct.
Qed.

Lemma collect_rebase (predict predict' : string -> History R -> result Prediction)
    (histories : Histories R) results :
  (forall c h, In (c, h) histories -> predict' c (rebase k d h) = predict c h) ->
  collect predict' (rebase_all k d histories) results
  = collect predict histories results.
Proof.
  unfold rebase_all. revert results.
  induction histories as [|[c h] histories IH]; intros results Hsame;
    cbn [map collect fst snd]; [reflexivity|].
  unfold rebase at 1. rewrite length_map. fold (rebase k d h).
  rewrite Hsame by now left.
  destruct (length h <? 2)%nat.
  - apply IH. intros c' h' Hin. apply Hsame. now right.
  - destruct (predict c h); [reflexivity|].
    apply IH. intros c' h' Hin. apply Hsame. now right.
Qed.
End Rebase.

(** X13. The rows depend on ratios of prices and on differences of times
    only. With every price of the store multiplied by the same positive
    factor and every time moved by the same amount, app.py, its clock
    moved as well, returns the same rows or raises the same exception, and
    so does streamlit_app.py on histories in strictly increasing order of
    time. *)
Theorem compute_predictions_rebased :
  forall (k : R) (d : Z) (histories : Histories R),
    (k > 0)%R ->
    (forall now,
        eval (App.compute_predictions (now + d)) (rebase_all k d histories)
        = eval (App.compute_predictions now) histories) /\
    (forall sort,
        StreamlitApp.sorts_by_time sort ->
        (forall c h, In (c, h) histories -> increasing h) ->
        eval (StreamlitApp.compute_predictions sort) (rebase_all k d histories)
        = eval (StreamlitApp.compute_predictions sort) histories).
Proof.
  intros k d histories Hk. split.
  - intros now. rewrite !app_compute_eval.
    apply collect_rebase. intros c h _. now apply app_predict_rebase.
  - intros sort Hsort Hinc. rewrite !streamlit_compute_eval.
    apply collect_rebase. intros c h Hin.
    apply streamlit_predict_rebase; eauto.
Qed.

(** ** app.py: where math.exp returns and where it raises *)

Local Open Scope R_scope.

Lemma exp_double x : exp (2 * x) = exp x * exp x.
Proof. rewrite <- exp_plus. f_equal. lra. Qed.

Lemma two_le_exp_tight : 2 <= exp 0.69335.
Proof.
  assert (H0 : 1 + 0.69335 / 2048 <= exp (0.69335 / 2048))
    by apply exp_ineq1_le.
  assert (H1 : 1.010890636208 <= exp (0.69335 / 64)).
  { replace (0.69335 / 64) with (INR 32 * (0.69335 / 2048)) by (cbn; lra).
    rewrite <- exp_pow.
    apply Rle_trans with ((1 + 0.69335 / 2048) ^ 32); [lra|].
    apply pow_incr. split; [lra | exact H0]. }
  replace 0.69335 with (INR 64 * (0.69335 / 64)) by (cbn; lra).
  rewrite <- exp_pow.
  apply Rle_trans with (1.010890636208 ^ 64); [lra|].
  apply pow_incr. split; [lra | exact H1].
Qed.



(** From 710 on it is not. *)
Lemma exp_out_of_range_710 x : 710 <= x -> App.DBL_MAX < exp x.
Proof.
  intros Hx.
  apply Rlt_le_trans with (2 ^ 1024); [apply DBL_MAX_lt_pow|].
  apply Rle_trans with (exp 0.69335 ^ 1024).
  - apply pow_incr. split; [lra | apply two_le_exp_tight].
  - rewrite exp_pow. apply exp_le.
    replace (INR 1024) with 1024 by (rewrite INR_IZR_INZ; reflexivity).
    lra.
Qed.

Lemma app_confidence_raises g e :
  App.confidence_of g = inl e ->
  e = OverflowError /\ App.DBL_MAX < exp (- (g - 5)).
Proof.
  unfold App.confidence_of. intros H.
  replace (- (g - 5.0)) with (- (g - 5)) in H by lra.
  apply result_bind_inl in H. destruct H as [Hexp | (x & Hexp & Hdiv)].
  - unfold App.math_exp in Hexp.
    destruct (Rlt_dec _ _) as [Hover|]; [|discriminate].
    injection Hexp as <-. split; [reflexivity | exact Hover].
  - apply math_exp_inv in Hexp. subst x.
    pose proof (exp_pos (- (g - 5))) as Hpos.
    unfold truediv in Hdiv. destruct (Req_dec_T _ 0); [lra | discriminate].
Qed.


(** [math.exp] is given 710 or more when the projected gain is -705 or
    less. *)
Lemma app_confidence_overflows g :
  g <= -705 -> App.confidence_of g = inl OverflowError.
Proof.
  intros Hg.
  destruct (App.confidence_of g) as [e|c] eqn:Hc.
  - apply app_confidence_raises in Hc. now destruct Hc as [-> _].
  - exfalso. unfold App.confidence_of in Hc.
    apply rbind_inv in Hc. destruct Hc as (x & Hexp & _).
    unfold App.math_exp in Hexp.
    destruct (Rlt_dec _ _) as [|Hno]; [discriminate|].
    apply Hno. apply exp_out_of_range_710. lra.
Qed.


Local Close Scope R_scope.

(** The body of the loop of app.py raises nothing but what the confidence
    raises. *)
Lemma app_predict_raises now c (h : History R) e :
  (1 <= length h)%nat ->
  App.predict now c h = inl e -> e = OverflowError.
Proof.
  intros Hlen Hp.
  destruct (app_predict_returns now c h Hlen)
    as (newest & r1 & r5 & r15 & _ & _ & _ & _ & Heq).
  cbv zeta in Heq. rewrite Heq in Hp.
  destruct (App.confidence_of _) as [e'|conf] eqn:Hconf; [|discriminate].
  injection Hp as <-. now apply app_confidence_raises in Hconf.
Qed.

Lemma collect_raises predict (items : list (string * History R)) results e :
  collect predict items results = inl e ->
  exists c h, In (c, h) items /\ (2 <= length h)%nat /\ predict c h = inl e.
Proof.
  revert results. induction items as [|[c h] items IH]; intros results H;
    cbn [collect] in H; [discriminate|].
  destruct (Nat.ltb_spec (length h) 2) as [Hlt|Hge].
  - destruct (IH _ H) as (c' & h' & Hin & Hlen & Hp).
    exists c', h'. auto using in_cons.
  - destruct (predict c h) as [e'|p] eqn:Hp.
    + injection H as <-. exists c, h. auto using in_eq.
    + destruct (IH _ H) as (c' & h' & Hin & Hlen & Hp').
      exists c', h'. auto using in_cons.
Qed.

Lemma collect_stops predict (items : list (string * History R)) results c h e :
  In (c, h) items -> (2 <= length h)%nat -> predict c h = inl e ->
  exists e', collect predict items results = inl e'.
Proof.
  revert results. induction items as [|[c' h'] items IH];
    intros results Hin Hlen Hp; [destruct Hin|]. cbn [collect].
  destruct Hin as [[= -> ->] | Hin].
  - destruct (Nat.ltb_spec (length h) 2); [lia|]. rewrite Hp. eauto.
  - destruct (length h' <? 2)%nat; [eauto|].
    destruct (predict c' h'); eauto.
Qed.

(** X15. The only exception that leaves [compute_predictions] in app.py is
    OverflowError: no index is out of range and no division is by zero,
    whatever the store holds. It comes from the row of a coin with two
    samples or more. *)
Theorem app_compute_raises_only_overflow :
  forall now (histories : Histories R) e,
    eval (App.compute_predictions now) histories = inl e ->
    e = OverflowError /\
    exists c h,
      In (c, h) histories /\ (2 <= length h)%nat /\
      App.predict now c h = inl OverflowError.
Proof.
  intros now histories e He. rewrite app_compute_eval in He.
  apply collect_raises in He. destruct He as (c & h & Hin & Hlen & Hp).
  assert (e = OverflowError) as ->
    by (eapply app_predict_raises; [|exact Hp]; lia).
  split; [reflexivity|]. exists c, h. auto.
Qed.

(** ** The confidence: the curve, and its two ends *)

Local Open Scope R_scope.





Local Close Scope R_scope.

Section ConfidenceAtTheEnds.
Import PrimFloat.


End ConfidenceAtTheEnds.

(** ** app.py: the falls in price it stands and those it does not *)




(** A history in order of time whose first sample is old enough and
    whose newest price has fallen far enough from it has no row in
    app.py: the confidence raises. *)
Lemma app_predict_falls now c first rest newest :
  StronglySorted StreamlitApp.time_le (first :: rest) ->
  getitem_last (first :: rest) = inr newest ->
  (price first > 0)%R ->
  (time first <= now - timedelta_minutes 1 /\
   (price newest <= 0.5 * price first)%R) \/
  (time first <= now - timedelta_minutes 15 /\
   (price newest <= 0.59 * price first)%R) ->
  App.predict now c (first :: rest) = inl OverflowError.
Proof.
  intros Hs Hlast Hpos Hfall.
  destruct (app_predict_returns now c (first :: rest))
    as (newest' & r1 & r5 & r15 & Hlast' & H1 & H5 & H15 & Heq);
    [cbn; lia|].
  rewrite Hlast in Hlast'. injection Hlast' as <-.
  rewrite app_pct_change_over, (find_in_time_order _ _ _ Hs) in H1.
  rewrite app_pct_change_over, (find_in_time_order _ _ _ Hs) in H5.
  rewrite app_pct_change_over, (find_in_time_order _ _ _ Hs) in H15.
  injection H1 as <-. injection H5 as <-. injection H15 as <-.
  cbv zeta in Heq. rewrite Heq. clear Heq.
  assert (Hr : return_from (Some first) (price newest)
               = ((price newest - price first) / price first)%R).
  { cbn. destruct (Rgt_dec (price first) 0); [reflexivity | lra]. }
  set (r := return_from (Some first) (price newest)) in *.
  assert (Hrle : forall q, (price newest <= q * price first)%R ->
                           (r <= q - 1)%R).
  { intros q Hq. rewrite Hr.
    apply Rmult_le_reg_r with (price first); [lra|].
    unfold Rdiv. rewrite Rmult_assoc, Rinv_l by lra. lra. }
  rewrite app_confidence_overflows; [reflexivity|].
  destruct Hfall as [[Hold Hq] | [Hold Hq]];
    apply Hrle in Hq; unfold timedelta_minutes in Hold;
    repeat match goal with
      | |- context [(?a <=? ?b)%Z] => destruct (Z.leb_spec a b)
      end;
    try lia;
    change (return_from (Some first) (price newest)) with r;
    cbn [return_from]; lra.
Qed.

(** X17. app.py does not stand a fall by half. If the store holds a
    history in order of time, of a positive first price, whose newest
    price is not negative and is half the first or less with the first
    sample a minute old, or 59% of it or less with the first sample a
    quarter of an hour old, then [compute_predictions] raises
    OverflowError and returns no row for any coin. The newest price not
    being negative keeps the return from the first sample between -1 and
    -0.41, where the quotient of two doubles is no infinity. *)
Theorem app_compute_raises_on_a_fall :
  forall now (histories : Histories R) c first rest newest,
    In (c, first :: rest) histories ->
    (2 <= length (first :: rest))%nat ->
    StronglySorted StreamlitApp.time_le (first :: rest) ->
    getitem_last (first :: rest) = inr newest ->
    (price first > 0)%R ->
    (0 <= price newest)%R ->
    (time first <= now - timedelta_minutes 1 /\
     (price newest <= 0.5 * price first)%R) \/
    (time first <= now - timedelta_minutes 15 /\
     (price newest <= 0.59 * price first)%R) ->
    (-1 <= return_from (Some first) (price newest) <= -0.41)%R /\
    eval (App.compute_predictions now) histories = inl OverflowError.
Proof.
  intros now histories c first rest newest Hin Hlen Hs Hlast Hpos Hnonneg
         Hfall.
  split.
  - cbn [return_from]. destruct (Rgt_dec (price first) 0) as [_|]; [|lra].
    assert (Hle : (price newest <= 0.59 * price first)%R)
      by (destruct Hfall as [[_ H] | [_ H]]; lra).
    split.
    + apply Rmult_le_reg_r with (price first); [lra|].
      unfold Rdiv. rewrite Rmult_assoc, Rinv_l by lra. lra.
    + apply Rmult_le_reg_r with (price first); [lra|].
      unfold Rdiv. rewrite Rmult_assoc, Rinv_l by lra. lra.
  - pose proof (app_predict_falls now c first rest newest Hs Hlast Hpos Hfall)
      as Hp.
    rewrite app_compute_eval.
    destruct (collect_stops (App.predict now) histories [] _ _ _ Hin Hlen Hp)
      as [e He].
    rewrite He. f_equal.
    apply collect_raises in He. destruct He as (c' & h' & _ & Hlen' & Hp').
    eapply app_predict_raises; [|exact Hp']. lia.
Qed.

(** X18. streamlit_app.py returns for every store, and what it returns is
    one row for each coin with two samples or more, in the order of the
    store; app.py returns the rows of the same coins whenever it
    returns. *)
Theorem compute_predictions_rows :
  (forall sort (histories : Histories R),
      StreamlitApp.sorts_by_time sort ->
      exists results,
        eval (StreamlitApp.compute_predictions sort) histories = inr results /\
        map coin results = coins_with_two histories) /\
  (forall now (histories : Histories R) results,
      eval (App.compute_predictions now) histories = inr results ->
      map coin results = coins_with_two histories).
Proof.
  split.
  - intros sort histories Hsort.
    destruct (streamlit_compute_returns sort histories Hsort)
      as [results Hres].
    exists results. split; [exact Hres|].
    rewrite streamlit_compute_eval in Hres.
    now apply (collect_coins _ _ _ _ (streamlit_predict_coin sort)) in Hres.
  - intros now histories results Hres.
    rewrite app_compute_eval in Hres.
    now apply (collect_coins _ _ _ _ (app_predict_coin now)) in Hres.
Qed.

(** ** main in app.py: the five most confident rows *)

Lemma insert_by_confidence_perm x l :
  Permutation (x :: l) (insert_by_confidence x l).
Proof.
  induction l as [|y l IH]; cbn.
  - apply Permutation_refl.
  - destruct (Rle_dec (confidence y) (confidence x));
      [apply Permutation_refl|].
    eapply Permutation_trans; [apply perm_swap|]. now apply perm_skip.
Qed.

Lemma predictions_sorted_perm predictions :
  Permutation predictions (predictions_sorted predictions).
Proof.
  unfold predictions_sorted. induction predictions as [|x l IH]; cbn.
  - constructor.
  - eapply Permutation_trans; [apply perm_skip, IH|].
    apply insert_by_confidence_perm.
Qed.

Lemma insert_by_confidence_sorted x l :
  StronglySorted (fun a b => (confidence b <= confidence a)%R) l ->
  StronglySorted (fun a b => (confidence b <= confidence a)%R)
                 (insert_by_confidence x l).
Proof.
  induction 1 as [|y l Hl IH Hy]; cbn.
  - repeat constructor.
  - destruct (Rle_dec (confidence y) (confidence x)) as [Hle | Hgt].
    + constructor; [now constructor|].
      constructor; [exact Hle|].
      eapply Forall_impl; [|exact Hy]. intros a Ha. cbn in *. lra.
    + constructor; [exact IH|].
      eapply Permutation_Forall; [apply insert_by_confidence_perm|].
      constructor; [lra | exact Hy].
Qed.

Lemma predictions_sorted_sorted predictions :
  StronglySorted (fun a b => (confidence b <= confidence a)%R)
                 (predictions_sorted predictions).
Proof.
  unfold predictions_sorted. induction predictions as [|x l IH]; cbn.
  - constructor.
  - now apply insert_by_confidence_sorted.
Qed.

Lemma sorted_firstn {A : Type} (R : A -> A -> Prop) n (l : list A) :
  StronglySorted R l -> StronglySorted R (firstn n l).
Proof.
  revert l. induction n as [|n IH]; intros l Hs; [constructor|].
  destruct l as [|a l]; [constructor|]. cbn.
  inversion Hs as [|? ? Hl Ha]; subst.
  constructor; [now apply IH|].
  rewrite Forall_forall in *. intros b Hb. apply Ha.
  rewrite <- (firstn_skipn n l). apply in_or_app. now left.
Qed.

(** In a sorted list whatever is cut off ranks after what is kept. *)
Lemma sorted_split {A : Type} (R : A -> A -> Prop) n (l : list A) a b :
  StronglySorted R l -> In a (firstn n l) -> In b (skipn n l) -> R a b.
Proof.
  revert l. induction n as [|n IH]; intros l Hs Ha Hb; [destruct Ha|].
  destruct l as [|x l]; [destruct Ha|]. cbn in Ha, Hb.
  inversion Hs as [|? ? Hl Hx]; subst.
  destruct Ha as [<- | Ha]; [|eauto].
  rewrite Forall_forall in Hx. apply Hx.
  rewrite <- (firstn_skipn n l). apply in_or_app. now right.
Qed.

(** X19. The rows of the table of app.py are the most confident ones: at
    most five and all there are when fewer, in falling order of
    confidence, each a row of the predictions, and no row left out is
    more confident than a row shown. *)
Theorem top_holds_the_most_confident :
  forall predictions : list Prediction,
    length (top predictions) = Nat.min 5 (length predictions) /\
    StronglySorted (fun a b => (confidence b <= confidence a)%R)
                   (top predictions) /\
    exists left_out,
      Permutation predictions (top predictions ++ left_out) /\
      forall a b, In a (top predictions) -> In b left_out ->
                  (confidence b <= confidence a)%R.
Proof.
  intros predictions. unfold top. repeat apply conj.
  - rewrite length_firstn.
    now rewrite <- (Permutation_length (predictions_sorted_perm predictions)).
  - apply sorted_firstn, predictions_sorted_sorted.
  - exists (skipn 5 (predictions_sorted predictions)). split.
    + rewrite firstn_skipn. apply predictions_sorted_perm.
    + intros a b Ha Hb.
      exact (sorted_split _ 5 _ a b (predictions_sorted_sorted predictions)
               Ha Hb).
Qed.

(** X20. As soon as there is one prediction app.py shows a table, of as
    many rows as there are predictions up to five; the message that no
    coin is predicted to surge is never shown, and the warning is shown
    for no prediction only. *)
Theorem app_view_always_a_table :
  forall (format_2f format_1f : R -> string) (predictions : list Prediction),
    app_view format_2f format_1f predictions <> st_info /\
    (app_view format_2f format_1f predictions = st_warning
     <-> predictions = []) /\
    (predictions <> [] ->
     exists table_rows,
       app_view format_2f format_1f predictions = st_table table_rows /\
       length table_rows = Nat.min 5 (length predictions) /\
       map Coin table_rows
       = map (fun p => format_coin_name (coin p)) (top predictions)).
Proof.
  intros format_2f format_1f predictions.
  assert (Hlen : length (top predictions) = Nat.min 5 (length predictions)).
  { unfold top. rewrite length_firstn.
    now rewrite <- (Permutation_length (predictions_sorted_perm predictions)). }
  unfold app_view. destruct predictions as [|p predictions].
  - split; [discriminate|]. split; [tauto | congruence].
  - destruct (top (p :: predictions)) as [|t tops] eqn:Htop.
    + cbn in Hlen. discriminate.
    + split; [discriminate|]. split; [split; discriminate|].
      intros _. eexists. split; [reflexivity|].
      split; [now rewrite length_map|].
      rewrite map_map. reflexivity.
Qed.

(** ** main in streamlit_app.py: the candidates and the threshold *)

Lemma ranks_first_trans a b c :
  ranks_first a b -> ranks_first b c -> ranks_first a c.
Proof. unfold ranks_first. intros [?|[? ?]] [?|[? ?]]; [left|left|left|right]; lra. Qed.

Lemma ranks_first_antisym a b : ranks_first a b -> ranks_first b a -> a = b.
Proof.
  unfold ranks_first. destruct a as [g1 c1], b as [g2 c2]. cbn.
  intros [?|[? ?]] [?|[? ?]]; try lra. f_equal; lra.
Qed.

Lemma sorted_figures sort l :
  sorts_by_rank sort -> StronglySorted ranks_first (map figures (sort l)).
Proof.
  intros Hsort. destruct (Hsort l) as [_ Hs].
  apply Sorted_StronglySorted in Hs.
  - induction Hs as [|x s Hs IH Hx]; cbn; constructor; [exact IH|].
    now apply Forall_map.
  - intros a b c. apply ranks_first_trans.
Qed.

(** A list has one arrangement in order of rank. *)
Lemma sorted_figures_unique (l1 l2 : list (R * R)) :
  StronglySorted ranks_first l1 -> StronglySorted ranks_first l2 ->
  Permutation l1 l2 -> l1 = l2.
Proof.
  intros Hs1. revert l2.
  induction Hs1 as [|a l1 Hs1 IH Ha]; intros l2 Hs2 Hperm.
  - apply Permutation_nil in Hperm. now subst.
  - destruct l2 as [|b l2];
      [apply Permutation_sym, Permutation_nil in Hperm; discriminate|].
    inversion Hs2 as [|? ? Hs2' Hb]; subst.
    rewrite Forall_forall in Ha, Hb.
    assert (Heq : a = b).
    { assert (Hin_b : In b (a :: l1))
        by (eapply Permutation_in;
            [apply Permutation_sym, Hperm | now left]).
      assert (Hin_a : In a (b :: l2))
        by (eapply Permutation_in; [exact Hperm | now left]).
      destruct Hin_b as [-> | Hin_b]; [reflexivity|].
      destruct Hin_a as [-> | Hin_a]; [reflexivity|].
      apply ranks_first_antisym; auto. }
    subst b. f_equal. apply IH; [exact Hs2'|].
    eapply Permutation_cons_inv. exact Hperm.
Qed.

Lemma filter_perm {A : Type} (f : A -> bool) (l l' : list A) :
  Permutation l l' -> Permutation (filter f l) (filter f l').
Proof.
  induction 1 as [| x l l' _ IH | x y l | l l' l'' _ IH1 _ IH2]; cbn.
  - constructor.
  - destruct (f x); [now constructor | exact IH].
  - destruct (f x), (f y); try apply Permutation_refl. apply perm_swap.
  - eapply Permutation_trans; eassumption.
Qed.

Lemma filter_sorted {A : Type} (R : A -> A -> Prop) (f : A -> bool)
    (l : list A) :
  StronglySorted R l -> StronglySorted R (filter f l).
Proof.
  induction 1 as [|x l Hs IH Hx]; cbn; [constructor|].
  destruct (f x); [|exact IH].
  constructor; [exact IH|].
  rewrite Forall_forall in *. intros b Hb.
  apply Hx. now apply filter_In in Hb.
Qed.

(** In order of rank the rows that clear the threshold come first. *)
Lemma filter_is_prefix (s : list (R * R)) :
  StronglySorted ranks_first s ->
  let clears := fun kf : R * R =>
    if Rge_dec (fst kf) 5.0 then true else false in
  filter clears s = firstn (length (filter clears s)) s.
Proof.
  intros Hs clears. induction Hs as [|a s Hs IH Ha]; [reflexivity|].
  cbn [filter]. destruct (clears a) eqn:Hca.
  - cbn [length firstn]. now rewrite <- IH.
  - assert (Hnone : filter clears s = []).
    { clear IH. induction s as [|b s IHs]; [reflexivity|].
      inversion Ha as [|? ? Hab Ha']; subst. inversion Hs; subst.
      cbn [filter].
      assert (Hcb : clears b = false).
      { unfold clears in *.
        destruct (Rge_dec (fst a) 5.0); [discriminate|].
        destruct (Rge_dec (fst b) 5.0) as [Hb|]; [|reflexivity].
        exfalso. unfold ranks_first in Hab. lra. }
      rewrite Hcb. auto. }
    rewrite Hnone. reflexivity.
Qed.

Lemma figures_of_filtered sort l :
  sorts_by_rank sort ->
  map figures (sort (filter clears_threshold l))
  = filter (fun kf : R * R => if Rge_dec (fst kf) 5.0 then true else false)
           (map figures (sort l)).
Proof.
  intros Hsort. apply sorted_figures_unique.
  - now apply sorted_figures.
  - apply filter_sorted. now apply sorted_figures.
  - rewrite filter_map_swap. apply Permutation_map.
    change (fun a => if Rge_dec (fst (figures a)) 5.0 then true else false)
      with clears_threshold.
    destruct (Hsort (filter clears_threshold l)) as [Hp1 _].
    destruct (Hsort l) as [Hp2 _].
    eapply Permutation_trans; [apply Permutation_sym, Hp1|].
    now apply filter_perm.
Qed.

(** X21. streamlit_app.py shows as many candidates as there are
    predictions, up to five; each is one of the predictions; and if five
    or more predictions clear the threshold of 5, every candidate shown
    clears it. *)
Theorem top_candidates_count :
  forall sort (predictions_df : list Prediction),
    sorts_by_rank sort ->
    length (top_candidates sort predictions_df)
    = Nat.min 5 (length predictions_df) /\
    (forall p, In p (top_candidates sort predictions_df) ->
               In p predictions_df) /\
    ((5 <= length (filter clears_threshold predictions_df))%nat ->
     forall p, In p (top_candidates sort predictions_df) ->
               (projected_gain p >= 5)%R).
Proof.
  intros sort l Hsort.
  destruct (Hsort l) as [Hall _].
  destruct (Hsort (filter clears_threshold l)) as [Hclear _].
  pose proof (Permutation_length Hall) as Hlen_all.
  pose proof (Permutation_length Hclear) as Hlen_clear.
  pose proof (filter_length_le clears_threshold l) as Hle.
  assert (Hin_firstn : forall (s : list Prediction) p,
            In p (firstn 5 s) -> In p s).
  { intros s p Hp. rewrite <- (firstn_skipn 5 s).
    apply in_or_app. now left. }
  unfold top_candidates. cbv zeta.
  rewrite length_firstn.
  destruct (Nat.ltb_spec
              (Nat.min 5 (length (sort (filter clears_threshold l)))) 5)
    as [Hfew | Hmany].
  - repeat apply conj.
    + rewrite length_firstn. lia.
    + intros p Hp. apply Hin_firstn in Hp.
      eapply Permutation_in; [apply Permutation_sym, Hall | exact Hp].
    + intros Hfive. lia.
  - repeat apply conj.
    + rewrite length_firstn. lia.
    + intros p Hp. apply Hin_firstn in Hp.
      apply (Permutation_in _ (Permutation_sym Hclear)) in Hp.
      now apply filter_In in Hp.
    + intros _ p Hp. apply Hin_firstn in Hp.
      apply (Permutation_in _ (Permutation_sym Hclear)) in Hp.
      apply filter_In in Hp. destruct Hp as [_ Hp].
      unfold clears_threshold in Hp.
      destruct (Rge_dec (projected_gain p) 5.0); [lra | discriminate].
Qed.

(** X22. The threshold of streamlit_app.py changes nothing on the page:
    whether or not five predictions clear it, the gains and confidences
    shown are those of the first five rows of all the predictions in
    order of rank. *)
Theorem top_candidates_threshold_is_idle :
  forall sort (predictions_df : list Prediction),
    sorts_by_rank sort ->
    map figures (top_candidates sort predictions_df)
    = firstn 5 (map figures (sort predictions_df)).
Proof.
  intros sort l Hsort. unfold top_candidates. cbv zeta.
  destruct (Nat.ltb_spec
              (length (firstn 5 (sort (filter clears_threshold l)))) 5)
    as [Hfew | Hmany].
  - now rewrite firstn_map.
  - rewrite <- firstn_map, (figures_of_filtered sort l Hsort).
    rewrite (filter_is_prefix _ (sorted_figures sort l Hsort)).
    cbv zeta. rewrite firstn_firstn. f_equal.
    rewrite length_firstn in Hmany.
    rewrite <- (figures_of_filtered sort l Hsort), length_map. lia.
Qed.

(** ** format_coin_name: every name is in title case *)

Lemma lower_is_not_upper c : Str.is_lower c = true -> Str.is_upper c = false.
Proof.
  destruct c as [[] [] [] [] [] [] [] []]; vm_compute; congruence.
Qed.

Lemma upper_of_lower c :
  Str.is_lower c = true ->
  Str.is_upper (Str.upper c) = true /\ Str.is_lower (Str.upper c) = false.
Proof.
  destruct c as [[] [] [] [] [] [] [] []]; vm_compute; intuition congruence.
Qed.

Lemma lower_of_upper c :
  Str.is_upper c = true ->
  Str.is_lower (Str.lower c) = true /\ Str.is_upper (Str.lower c) = false.
Proof.
  destruct c as [[] [] [] [] [] [] [] []]; vm_compute; intuition congruence.
Qed.

(** What [title] returns is in title case. *)
Lemma titled_title_from b s : titled b (Str.title_from b s) = true.
Proof.
  revert b. induction s as [|c s IH]; intros b; [reflexivity|].
  cbn [Str.title_from].
  destruct (Str.is_lower c) eqn:Hl.
  - pose proof (lower_is_not_upper c Hl) as Hu.
    destruct (upper_of_lower c Hl) as [Huu Hul].
    destruct b; cbn [titled].
    + now rewrite Hu, Hl, IH.
    + now rewrite Hul, Huu, IH.
  - destruct (Str.is_upper c) eqn:Hu.
    + destruct (lower_of_upper c Hu) as [Hll Hlu].
      destruct b; cbn [titled].
      * now rewrite Hlu, Hll, IH.
      * now rewrite Hl, Hu, IH.
    + cbn [titled]. rewrite Hl, Hu, IH. now destruct b.
Qed.

(** [title] leaves a string in title case as it is. *)
Lemma title_from_titled b s : titled b s = true -> Str.title_from b s = s.
Proof.
  revert b. induction s as [|c s IH]; intros b Ht; [reflexivity|].
  cbn [titled] in Ht. apply andb_true_iff in Ht. destruct Ht as [Hc Ht].
  cbn [Str.title_from].
  destruct (Str.is_lower c) eqn:Hl.
  - destruct b; [|cbn in Hc; discriminate]. f_equal. apply IH. exact Ht.
  - destruct (Str.is_upper c) eqn:Hu.
    + destruct b; [cbn in Hc; discriminate|].
      f_equal. apply IH. exact Ht.
    + f_equal. apply IH. exact Ht.
Qed.

(** "XRP" is not in title case, and is in no string that is. *)
Lemma titled_without_xrp b s : titled b s = true -> occurs "XRP" s = false.
Proof.
  revert b. induction s as [|c s IH]; intros b Ht; [reflexivity|].
  cbn [occurs]. apply orb_false_iff. split.
  - destruct (String.prefix "XRP" (String c s)) eqn:Hp; [|reflexivity].
    exfalso. cbn [String.prefix] in Hp.
    destruct (ascii_dec "X" c) as [<-|]; [|discriminate].
    destruct s as [|c2 s]; cbn [String.prefix] in Hp; [discriminate|].
    destruct (ascii_dec "R" c2) as [<-|]; [|discriminate].
    cbn in Ht. destruct b; discriminate.
  - cbn [titled] in Ht. apply andb_true_iff in Ht.
    destruct Ht as [_ Ht]. exact (IH _ Ht).
Qed.

(** X23. Every name that [format_coin_name] returns is in title case: no
    upper-case letter follows a letter in it. So no identifier at all is
    shown with "XRP" in its name, and title-casing a name again changes
    nothing. *)
Theorem format_coin_name_is_title_cased :
  forall coin_id : string,
    titled false (format_coin_name coin_id) = true /\
    occurs "XRP" (format_coin_name coin_id) = false /\
    Str.title (format_coin_name coin_id) = format_coin_name coin_id.
Proof.
  intros coin_id.
  assert (Ht : titled false (format_coin_name coin_id) = true)
    by apply titled_title_from.
  repeat apply conj.
  - exact Ht.
  - exact (titled_without_xrp _ _ Ht).
  - exact (title_from_titled _ _ Ht).
Qed.

(** ** A sort by rank *)

Lemma insert_by_rank_perm x l : Permutation (x :: l) (insert_by_rank x l).
Proof.
  induction l as [|y l IH]; cbn.
  - apply Permutation_refl.
  - destruct (Rgt_dec (projected_gain x) (projected_gain y));
      [apply Permutation_refl|].
    destruct (Rgt_dec (projected_gain y) (projected_gain x)).
    + eapply Permutation_trans; [apply perm_swap|]. now apply perm_skip.
    + destruct (Rge_dec (confidence x) (confidence y));
        [apply Permutation_refl|].
      eapply Permutation_trans; [apply perm_swap|]. now apply perm_skip.
Qed.

Lemma insert_by_rank_sorted x l :
  StronglySorted (fun a b => ranks_first (figures a) (figures b)) l ->
  StronglySorted (fun a b => ranks_first (figures a) (figures b))
                 (insert_by_rank x l).
Proof.
  induction 1 as [|y l Hl IH Hy]; cbn.
  - repeat constructor.
  - assert (Hfirst : ranks_first (figures x) (figures y) ->
      StronglySorted (fun a b => ranks_first (figures a) (figures b))
                     (x :: y :: l)).
    { intros Hxy. constructor; [now constructor|].
      constructor; [exact Hxy|].
      eapply Forall_impl; [|exact Hy]. intros a Ha.
      eapply ranks_first_trans; eassumption. }
    assert (Hlater : ranks_first (figures y) (figures x) ->
      StronglySorted (fun a b => ranks_first (figures a) (figures b))
                     (y :: insert_by_rank x l)).
    { intros Hyx. constructor; [exact IH|].
      eapply Permutation_Forall; [apply insert_by_rank_perm|].
      now constructor. }
    unfold ranks_first, figures in *. cbn [fst snd] in *.
    destruct (Rgt_dec (projected_gain x) (projected_gain y));
      [apply Hfirst; now left|].
    destruct (Rgt_dec (projected_gain y) (projected_gain x));
      [apply Hlater; now left|].
    destruct (Rge_dec (confidence x) (confidence y)).
    + apply Hfirst. right. split; [lra | assumption].
    + apply Hlater. right. split; lra.
Qed.

Lemma sort_by_rank_sorts : sorts_by_rank sort_by_rank.
Proof.
  intros l. unfold sort_by_rank. split.
  - induction l as [|x l IH]; cbn; [constructor|].
    eapply Permutation_trans; [apply perm_skip, IH|].
    apply insert_by_rank_perm.
  - apply StronglySorted_Sorted.
    induction l as [|x l IH]; cbn; [constructor|].
    now apply insert_by_rank_sorted.
Qed.

(** ** The further properties at concrete inputs *)

(** A quote for one coin, a history of another. *)
Lemma update_histories_frame_witness :
  let prices := [("bitcoin", (1%R, 0))] in
  let histories := [("ethereum", [mkSample 1 2%R])] in
  ~ In "ethereum" (Dict.keys prices) /\
  Dict.get (exec (update_histories 5 prices) histories) "ethereum"
  = Dict.get histories "ethereum".
Proof.
  cbv zeta.
  assert (Hout : ~ In "ethereum" (Dict.keys [("bitcoin", (1%R, 0))]))
    by (cbn; intros [H | []]; discriminate H).
  split; [exact Hout|].
  pose proof (update_histories_frame R 5 [("bitcoin", (1%R, 0))]
                [("ethereum", [mkSample 1 2%R])]) as H.
  cbv zeta in H. destruct H as (Hframe & _ & _).
  exact (Hframe "ethereum" Hout).
Defined.

(** A sample at 1, the clock at 5. *)
Lemma update_histories_keeps_time_order_witness :
  let histories := [("bitcoin", [mkSample 1 2%R])] in
  Forall (fun kv => chronological 5 (snd kv)) histories /\
  Forall (fun kv => chronological 5 (snd kv))
         (exec (update_histories 5 [("bitcoin", (1%R, 0))]) histories).
Proof.
  cbv zeta.
  assert (Hall : Forall (fun kv => chronological 5 (snd kv))
                        [("bitcoin", [mkSample 1 2%R])]).
  { constructor; [|constructor]. split; repeat constructor. cbn. lia. }
  split; [exact Hall|].
  exact (update_histories_keeps_time_order R 5 [("bitcoin", (1%R, 0))]
           [("bitcoin", [mkSample 1 2%R])] Hall).
Defined.

(** Two calls, at 5 and at 6. *)
Lemma update_histories_first_in_first_out_witness :
  let calls := [(5, [("bitcoin", (1%R, 0))]); (6, [("bitcoin", (2%R, 0))])] in
  let samples := [mkSample 5 1%R; mkSample 6 2%R] in
  Forall2 (quoted_as "bitcoin") calls samples /\
  samples <> [] /\
  Dict.get (exec (update_each calls) []) "bitcoin"
  = Some (last_n 60 (history_of [] "bitcoin" ++ samples)).
Proof.
  cbv zeta.
  set (calls := [(5, [("bitcoin", (1%R, 0))]); (6, [("bitcoin", (2%R, 0))])]).
  set (samples := [mkSample 5 1%R; mkSample 6 2%R]).
  assert (Hq : Forall2 (quoted_as "bitcoin") calls samples).
  { repeat constructor; cbn; try tauto; eexists; left; reflexivity. }
  assert (Hne : samples <> []) by discriminate.
  pose proof (update_histories_first_in_first_out R "bitcoin" calls samples
                [] Hq Hne) as H.
  cbv zeta in H. destruct H as [Hget _].
  repeat (split; [assumption|]). exact Hget.
Defined.

(** A payload with one complete quote. *)
Lemma fetch_prices_returns_listed_coins_witness :
  let upstream :=
    Response 200
      (Some (PDict [("bitcoin",
                     PDict [("usd", PInt 1); ("last_updated_at", PInt 0)])])) in
  let prices := [("bitcoin", (PInt 1, 0))] in
  fetch_prices upstream = inr prices /\ Dict.wf prices.
Proof.
  cbv zeta.
  set (upstream :=
    Response 200
      (Some (PDict [("bitcoin",
                     PDict [("usd", PInt 1); ("last_updated_at", PInt 0)])]))).
  assert (Hfetch : fetch_prices upstream = inr [("bitcoin", (PInt 1, 0))])
    by reflexivity.
  split; [exact Hfetch|].
  destruct (fetch_prices_returns_listed_coins upstream _ Hfetch) as [Hwf _].
  exact Hwf.
Defined.

(** A quote whose update time is 2^63 seconds: one more than a [time_t]
    holds. *)
Lemma fetch_prices_raises_only_on_json_witness :
  let data :=
    PDict [("bitcoin",
            PDict [("usd", PInt 1);
                   ("last_updated_at", PInt 9223372036854775808)])] in
  fetch_prices (Response 200 (Some data)) = inl OverflowError /\
  exists status data',
    Response 200 (Some data) = Response status (Some data') /\
    ~ (400 <= status < 600).
Proof.
  cbv zeta.
  set (data :=
    PDict [("bitcoin",
            PDict [("usd", PInt 1);
                   ("last_updated_at", PInt 9223372036854775808)])]).
  assert (Hraise : fetch_prices (Response 200 (Some data)) = inl OverflowError)
    by (vm_compute; reflexivity).
  split; [exact Hraise|].
  destruct (fetch_prices_raises_only_on_json _ _ Hraise) as [_ Hjson].
  exact Hjson.
Defined.

(** The same quote with and without an entry for a coin off the list. *)
Lemma fetch_prices_ignores_unlisted_keys_witness :
  let quote := PDict [("usd", PInt 1); ("last_updated_at", PInt 0)] in
  let d1 := [("bitcoin", quote)] in
  let d2 := [("bitcoin", quote); ("monero", quote)] in
  (forall c, In c COINS -> Dict.get d1 c = Dict.get d2 c) /\
  fetch_prices (Response 200 (Some (PDict d1)))
  = fetch_prices (Response 200 (Some (PDict d2))).
Proof.
  cbv zeta.
  set (quote := PDict [("usd", PInt 1); ("last_updated_at", PInt 0)]).
  assert (Hagree : forall c, In c COINS ->
            Dict.get [("bitcoin", quote)] c
            = Dict.get [("bitcoin", quote); ("monero", quote)] c).
  { intros c Hc. unfold COINS in Hc. cbn [In] in Hc.
    repeat (destruct Hc as [<- | Hc]; [reflexivity|]). destruct Hc. }
  split; [exact Hagree|].
  exact (fetch_prices_ignores_unlisted_keys 200 _ _ Hagree).
Defined.

(** A first run that meets a 404, and one that meets a JSON array. *)
Lemma main_refresh_without_quotes_witness :
  let st := {| autorefresh := None; price_histories := None |} in
  let unchanged := {| autorefresh := Some 1; price_histories := Some [] |} in
  400 <= 404 < 600 /\
  fetch_prices (Response 200 (Some (PList []))) = inl AttributeError /\
  run (main_refresh (Response 404 None) 5) st = (inr tt, unchanged) /\
  run (main_refresh (Response 200 (Some (PList []))) 5) st
  = (inl AttributeError, unchanged).
Proof.
  cbv zeta.
  assert (Herr : 400 <= 404 < 600) by lia.
  assert (Hraise :
    fetch_prices (Response 200 (Some (PList []))) = inl AttributeError)
    by reflexivity.
  pose proof (main_refresh_without_quotes 5
                {| autorefresh := None; price_histories := None |}) as H.
  cbv zeta in H. destruct H as (_ & Hstatus & _ & Hexn).
  repeat (split; [assumption|]).
  split; [exact (Hstatus 404 None Herr) | exact (Hexn _ _ Hraise)].
Defined.

(** A store with one empty history, an upstream out of reach. *)
Lemma main_refresh_keeps_60_witness :
  let st := {| autorefresh := None;
               price_histories := Some [("bitcoin", [])] |} in
  bounded (stored st) /\
  bounded (stored (exec (main_refresh Unreachable 5) st)).
Proof.
  cbv zeta.
  set (st := {| autorefresh := None;
                price_histories := Some [("bitcoin", [])] |}).
  assert (Hb : bounded (stored st))
    by (unfold bounded; repeat constructor; cbn; lia).
  split; [exact Hb|].
  exact (main_refresh_keeps_60 Unreachable 5 st Hb).
Defined.

(** A first run that meets one complete quote. *)
Lemma main_refresh_stores_quotes_witness :
  let d := [("bitcoin", PDict [("usd", PInt 1); ("last_updated_at", PInt 0)])] in
  let st := {| autorefresh := None; price_histories := None |} in
  ~ (400 <= 200 < 600) /\
  (forall c, In c COINS -> quote_shaped d c) /\
  In "bitcoin" COINS /\
  complete_quote d "bitcoin" (PInt 1) 0 /\
  Dict.get
    (stored (exec (main_refresh (Response 200 (Some (PDict d))) 5) st))
    "bitcoin"
  = Some (last_n 60 (history_of (stored st) "bitcoin"
                     ++ [mkSample 5 (PInt 1)])).
Proof.
  cbv zeta.
  set (d := [("bitcoin",
              PDict [("usd", PInt 1); ("last_updated_at", PInt 0)])]).
  set (st := {| autorefresh := None; price_histories := None |}).
  assert (Hok : ~ (400 <= 200 < 600)) by lia.
  assert (Hshaped : forall c, In c COINS -> quote_shaped d c).
  { intros c Hc. unfold quote_shaped.
    destruct (String.eqb_spec "bitcoin" c) as [<-|Hne].
    - right. eexists. split; [reflexivity|].
      intros p ts _ _ Hts _. cbn in Hts. injection Hts as <-.
      exists 0. reflexivity.
    - unfold d. cbn [Dict.get].
      destruct (String.eqb_spec "bitcoin" c); [contradiction | exact I]. }
  assert (Hlisted : In "bitcoin" COINS) by (unfold COINS; now left).
  assert (Hquote : complete_quote d "bitcoin" (PInt 1) 0).
  { exists [("usd", PInt 1); ("last_updated_at", PInt 0)], (PInt 0).
    repeat (split; [first [reflexivity | discriminate]|]). reflexivity. }
  pose proof (main_refresh_stores_quotes 200 d 5 st Hok Hshaped) as H.
  cbv zeta in H. destruct H as (_ & Hstore & _).
  repeat (split; [assumption|]).
  exact (Hstore "bitcoin" (PInt 1) 0 Hlisted Hquote).
Defined.

(** Two samples two minutes apart. *)
Lemma windows_use_earliest_sample_witness :
  let first := mkSample 0 100%R in
  let rest := [mkSample 120000000 105%R] in
  StronglySorted StreamlitApp.time_le (first :: rest) /\
  StreamlitApp.sorts_by_time StreamlitApp.stable_sort /\
  StreamlitApp.stable_sort (first :: rest) = first :: rest /\
  getitem_last (first :: rest) = inr (mkSample 120000000 105%R) /\
  App.pct_change_over 130000000 (first :: rest) 105 1
  = inr (return_from (Some first) 105) /\
  StreamlitApp.pct_change_over (StreamlitApp.stable_sort (first :: rest)) 105 5
  = inr 0%R.
Proof.
  cbv zeta.
  set (first := mkSample 0 100%R). set (rest := [mkSample 120000000 105%R]).
  assert (Hs : StronglySorted StreamlitApp.time_le (first :: rest)).
  { repeat constructor. unfold StreamlitApp.time_le. cbn. lia. }
  assert (Hdf : StreamlitApp.stable_sort (first :: rest) = first :: rest)
    by reflexivity.
  assert (Hlast : getitem_last (first :: rest)
                  = inr (mkSample 120000000 105%R)) by reflexivity.
  destruct windows_use_earliest_sample as [Happ Hstreamlit].
  repeat (split; [first [assumption | apply stable_sort_sorts]|]).
  split.
  - exact (Happ 130000000 first rest 105%R 1 Hs).
  - exact (Hstreamlit StreamlitApp.stable_sort (first :: rest) first rest
             _ 105%R 5 stable_sort_sorts Hdf Hlast).
Defined.

(** Two samples a quarter of an hour apart. *)
Lemma projected_gain_from_earliest_sample_witness :
  let first := mkSample 0 100%R in
  let newest := mkSample 900000000 105%R in
  StreamlitApp.sorts_by_time StreamlitApp.stable_sort /\
  StreamlitApp.stable_sort [first; newest] = [first; newest] /\
  getitem_last [first; newest] = inr newest /\
  time first <= time newest - timedelta_minutes 15 /\
  exists p,
    StreamlitApp.predict StreamlitApp.stable_sort "bitcoin" [first; newest]
    = inr p /\
    projected_gain p = (1720 * return_from (Some first) (price newest))%R.
Proof.
  cbv zeta.
  set (first := mkSample 0 100%R). set (newest := mkSample 900000000 105%R).
  assert (Hdf : StreamlitApp.stable_sort [first; newest] = [first; newest])
    by reflexivity.
  assert (Hlast : getitem_last [first; newest] = inr newest) by reflexivity.
  assert (Hold : time first <= time newest - timedelta_minutes 15)
    by (cbn; lia).
  destruct projected_gain_from_earliest_sample as [_ Hstreamlit].
  repeat (split; [first [assumption | apply stable_sort_sorts]|]).
  exact (Hstreamlit StreamlitApp.stable_sort "bitcoin" [first; newest]
           first [newest] newest stable_sort_sorts Hdf Hlast Hold).
Defined.

(** Two samples two minutes apart, the clock at the second. *)
Lemma files_agree_at_newest_sample_witness :
  let history := [mkSample 0 100%R; mkSample 120000000 105%R] in
  let newest := mkSample 120000000 105%R in
  StreamlitApp.sorts_by_time StreamlitApp.stable_sort /\
  increasing history /\
  getitem_last history = inr newest /\
  App.pct_change_over (time newest) history 105 1
  = StreamlitApp.pct_change_over (StreamlitApp.stable_sort history) 105 1.
Proof.
  cbv zeta.
  set (history := [mkSample 0 100%R; mkSample 120000000 105%R]).
  set (newest := mkSample 120000000 105%R).
  assert (Hinc : increasing history)
    by (unfold increasing; repeat constructor; cbn; lia).
  assert (Hlast : getitem_last history = inr newest) by reflexivity.
  destruct (files_agree_at_newest_sample StreamlitApp.stable_sort "bitcoin"
              history newest stable_sort_sorts Hinc Hlast) as [Hwin _].
  repeat (split; [first [assumption | apply stable_sort_sorts]|]).
  exact (Hwin 105%R 1).
Defined.

(** Prices doubled, times moved by seven microseconds. *)
Lemma compute_predictions_rebased_witness :
  let histories := [("bitcoin", [mkSample 0 100%R; mkSample 60000000 105%R])] in
  (2 > 0)%R /\
  eval (App.compute_predictions (60000000 + 7)) (rebase_all 2 7 histories)
  = eval (App.compute_predictions 60000000) histories.
Proof.
  cbv zeta.
  assert (Hk : (2 > 0)%R) by lra.
  split; [exact Hk|].
  destruct (compute_predictions_rebased 2 7
              [("bitcoin", [mkSample 0 100%R; mkSample 60000000 105%R])] Hk)
    as [Happ _].
  exact (Happ 60000000).
Defined.


(** A price of 100 that is 50 a minute later. *)
Lemma halved_price_raises :
  eval (App.compute_predictions 60001000)
       [("bitcoin", [mkSample 0 100%R; mkSample 60000000 50%R])]
  = inl OverflowError.
Proof.
  rewrite app_compute_eval. cbn [collect length Nat.ltb Nat.leb].
  rewrite (app_predict_falls 60001000 "bitcoin" (mkSample 0 100%R)
             [mkSample 60000000 50%R] (mkSample 60000000 50%R)).
  - reflexivity.
  - repeat constructor. unfold StreamlitApp.time_le. cbn. lia.
  - reflexivity.
  - cbn. lra.
  - left. split; [cbn; lia | cbn; lra].
Qed.

Lemma app_compute_raises_only_overflow_witness :
  let histories := [("bitcoin", [mkSample 0 100%R; mkSample 60000000 50%R])] in
  eval (App.compute_predictions 60001000) histories = inl OverflowError /\
  exists c h,
    In (c, h) histories /\ (2 <= length h)%nat /\
    App.predict 60001000 c h = inl OverflowError.
Proof.
  cbv zeta. split; [exact halved_price_raises|].
  destruct (app_compute_raises_only_overflow _ _ _ halved_price_raises)
    as [_ Hrow].
  exact Hrow.
Defined.


(** A price of 100 that is 50 a minute later, once more. *)
Lemma app_compute_raises_on_a_fall_witness :
  let first := mkSample 0 100%R in
  let newest := mkSample 60000000 50%R in
  let histories := [("bitcoin", [first; newest])] in
  In ("bitcoin", [first; newest]) histories /\
  (2 <= length [first; newest])%nat /\
  StronglySorted StreamlitApp.time_le [first; newest] /\
  getitem_last [first; newest] = inr newest /\
  (price first > 0)%R /\
  (0 <= price newest)%R /\
  (time first <= 60001000 - timedelta_minutes 1 /\
   (price newest <= 0.5 * price first)%R) /\
  eval (App.compute_predictions 60001000) histories = inl OverflowError.
Proof.
  cbv zeta.
  set (first := mkSample 0 100%R). set (newest := mkSample 60000000 50%R).
  assert (Hin : In ("bitcoin", [first; newest]) [("bitcoin", [first; newest])])
    by (left; reflexivity).
  assert (Hlen : (2 <= length [first; newest])%nat) by (cbn; lia).
  assert (Hs : StronglySorted StreamlitApp.time_le [first; newest]).
  { repeat constructor. unfold StreamlitApp.time_le. cbn. lia. }
  assert (Hlast : getitem_last [first; newest] = inr newest) by reflexivity.
  assert (Hpos : (price first > 0)%R) by (cbn; lra).
  assert (Hnonneg : (0 <= price newest)%R) by (cbn; lra).
  assert (Hfall : time first <= 60001000 - timedelta_minutes 1 /\
                  (price newest <= 0.5 * price first)%R)
    by (split; [cbn; lia | cbn; lra]).
  repeat (split; [assumption|]).
  exact (proj2 (app_compute_raises_on_a_fall 60001000 _ "bitcoin" first
                  [newest] newest Hin Hlen Hs Hlast Hpos Hnonneg
                  (or_introl Hfall))).
Defined.

(** One coin with two samples, one with a single sample. *)
Lemma compute_predictions_rows_witness :
  let histories :=
    [("bitcoin", [mkSample 0 100%R; mkSample 60000000 105%R]);
     ("ethereum", [mkSample 0 7%R])] in
  StreamlitApp.sorts_by_time StreamlitApp.stable_sort /\
  exists results,
    eval (StreamlitApp.compute_predictions StreamlitApp.stable_sort) histories
    = inr results /\
    map coin results = ["bitcoin"].
Proof.
  cbv zeta. split; [apply stable_sort_sorts|].
  destruct compute_predictions_rows as [Hstreamlit _].
  exact (Hstreamlit StreamlitApp.stable_sort _ stable_sort_sorts).
Defined.

(** Two predictions. *)
Lemma top_holds_the_most_confident_witness :
  let predictions :=
    [mkPrediction "bitcoin" 1 0.25; mkPrediction "ethereum" 6 0.75] in
  length (top predictions) = 2%nat /\
  StronglySorted (fun a b => (confidence b <= confidence a)%R)
                 (top predictions).
Proof.
  cbv zeta.
  destruct (top_holds_the_most_confident
              [mkPrediction "bitcoin" 1 0.25; mkPrediction "ethereum" 6 0.75])
    as (Hlen & Hsorted & _).
  split; [exact Hlen | exact Hsorted].
Defined.

(** One prediction, formats that print nothing. *)
Lemma app_view_always_a_table_witness :
  let predictions := [mkPrediction "bitcoin" 1 0.25] in
  let format := fun _ : R => EmptyString in
  predictions <> [] /\
  exists table_rows,
    app_view format format predictions = st_table table_rows /\
    length table_rows = 1%nat /\
    map Coin table_rows
    = map (fun p => format_coin_name (coin p)) (top predictions).
Proof.
  cbv zeta.
  assert (Hne : [mkPrediction "bitcoin" 1 0.25] <> []) by discriminate.
  split; [exact Hne|].
  destruct (app_view_always_a_table (fun _ => EmptyString)
              (fun _ => EmptyString) [mkPrediction "bitcoin" 1 0.25])
    as (_ & _ & Htable).
  exact (Htable Hne).
Defined.

(** Five predictions of a gain of 6. *)
Lemma top_candidates_count_witness :
  let p := mkPrediction "bitcoin" 6 0.75 in
  let predictions_df := [p; p; p; p; p] in
  sorts_by_rank sort_by_rank /\
  (5 <= length (filter clears_threshold predictions_df))%nat /\
  length (top_candidates sort_by_rank predictions_df) = 5%nat /\
  forall q, In q (top_candidates sort_by_rank predictions_df) ->
            (projected_gain q >= 5)%R.
Proof.
  cbv zeta.
  set (p := mkPrediction "bitcoin" 6 0.75).
  assert (Hp : clears_threshold p = true).
  { unfold clears_threshold, p. cbn [projected_gain].
    destruct (Rge_dec 6 5.0); [reflexivity | lra]. }
  assert (Hmany : (5 <= length (filter clears_threshold [p; p; p; p; p]))%nat).
  { cbn [filter]. rewrite Hp. cbn. lia. }
  destruct (top_candidates_count sort_by_rank [p; p; p; p; p]
              sort_by_rank_sorts) as (Hlen & _ & Hclear).
  split; [exact sort_by_rank_sorts|].
  split; [exact Hmany|].
  split; [exact Hlen | exact (Hclear Hmany)].
Defined.

(** Two predictions, one of which clears the threshold. *)
Lemma top_candidates_threshold_is_idle_witness :
  let predictions_df :=
    [mkPrediction "bitcoin" 1 0.25; mkPrediction "ethereum" 6 0.75] in
  sorts_by_rank sort_by_rank /\
  map figures (top_candidates sort_by_rank predictions_df)
  = firstn 5 (map figures (sort_by_rank predictions_df)).
Proof.
  cbv zeta. split; [exact sort_by_rank_sorts|].
  exact (top_candidates_threshold_is_idle sort_by_rank _ sort_by_rank_sorts).
Defined.
